(** * VectorRC: the browser remote control of the Vector robot

    A shallow embedding of [VectorRC.py]: the [RemoteControlVector] session
    object, its motion policy, its bounded action queue, the animation
    catalog built at construction and the Flask request handlers.

    Conventions of the embedding.
    - Python numbers are exact rationals ([Q]); the integers of the source
      are the rationals with denominator 1, and the floats coming from the
      mouse are idealised as rationals.
    - The flags of the session hold [0] at construction and a JSON boolean
      afterwards; Python treats [0]/[False] and [1]/[True] alike in the
      arithmetic and in the comparisons the source performs, so a flag is a
      [bool] and [b2q] is its numeric value.
    - The robot ([self.vector]) is an external object: a call on it is
      recorded, in order, in its [sent] log.
    - A Python exception is a [Raise] result; the state reached when it was
      raised is kept. *)

From stdpp Require Import base list strings sorting pretty.
From Stdlib Require Import Ascii QArith Lqa.

Open Scope Z_scope.

(** ** Python values *)

Definition ord (c : ascii) : Z := Z.of_N (N_of_ascii c).

Definition b2q (b : bool) : Q := if b then 1%Q else 0%Q.

Inductive exn : Type :=
| IndexError
| ValueError
| AttributeError
| ZeroDivisionError
| RecursionError.

Inductive result (A : Type) : Type :=
| Ok (a : A)
| Raise (e : exn).
Arguments Ok {A} a.
Arguments Raise {A} e.

(** [l[i]] on a Python list: a negative index counts from the end, an index
    outside [-len .. len-1] raises [IndexError]. *)
Definition py_slot {A} (l : list A) (i : Z) : option nat :=
  let n := Z.of_nat (length l) in
  if bool_decide (0 <= i < n) then Some (Z.to_nat i)
  else if bool_decide (- n <= i < 0) then Some (Z.to_nat (n + i))
  else None.

Definition py_getitem {A} (l : list A) (i : Z) : result A :=
  match py_slot l i with
  | Some k => match l !! k with Some x => Ok x | None => Raise IndexError end
  | None => Raise IndexError
  end.

(** [l[i] = x] on a Python list. *)
Definition py_setitem {A} (l : list A) (i : Z) (x : A) : result (list A) :=
  match py_slot l i with
  | Some k => Ok (<[k:=x]> l)
  | None => Raise IndexError
  end.

(** [l.index(x)]: the position of the first occurrence, [ValueError] when
    there is none. *)
Fixpoint py_index (l : list string) (x : string) : result Z :=
  match l with
  | [] => Raise ValueError
  | y :: l' =>
      if String.eqb y x then Ok 0
      else match py_index l' x with
           | Ok i => Ok (1 + i)
           | Raise e => Raise e
           end
  end.

(** ** The robot and the session object *)

(** A queued one-shot action: the pair [(function, argument)] of the source,
    whose function is [vector.anim.play_animation] or [vector.say_text]. *)
Inductive Action : Type :=
| PlayAnimation (anim_name : string)
| SayText (text : string).

(** The calls the program makes on the robot. *)
Inductive Command : Type :=
| SetWheelMotors (l_wheel_speed r_wheel_speed l_wheel_acc r_wheel_acc : Q)
| SetLiftMotor (lift_vel : Q)
| SetHeadMotor (head_vel : Q)
| DriveOnCharger
| SetEyeColor (hue saturation : Q)
| SetScreenToColor (r g b : Z) (duration_sec : Q)
| ReleaseControl
| RequestControl
| Run (action : Action).

Record Robot : Type := mkRobot {
  sent : list Command;     (* the calls received so far, oldest first *)
  head_angle_deg : Q       (* util.radians(head_angle_rad).degrees *)
}.

Record RemoteControlVector : Type := mkRCV {
  vector : Robot;
  drive_forwards : bool;
  drive_back : bool;
  turn_left : bool;
  turn_right : bool;
  lift_up : bool;
  lift_down : bool;
  head_up : bool;
  head_down : bool;
  torchIsEnabled : bool;
  go_fast : bool;
  go_slow : bool;
  is_mouse_look_enabled : bool;
  mouse_dir : Q;
  anim_names : list string;
  anim_index_for_key : list Z;
  action_queue : list Action;
  text_to_say : string
}.

(** Attribute assignments [self.x = v]. *)
Definition set_vector v s :=
  let '(mkRCV _ a b c d e f g h i j k l m n o p q) := s in mkRCV v a b c d e f g h i j k l m n o p q.
Definition set_drive_forwards v s :=
  let '(mkRCV r _ b c d e f g h i j k l m n o p q) := s in mkRCV r v b c d e f g h i j k l m n o p q.
Definition set_drive_back v s :=
  let '(mkRCV r a _ c d e f g h i j k l m n o p q) := s in mkRCV r a v c d e f g h i j k l m n o p q.
Definition set_turn_left v s :=
  let '(mkRCV r a b _ d e f g h i j k l m n o p q) := s in mkRCV r a b v d e f g h i j k l m n o p q.
Definition set_turn_right v s :=
  let '(mkRCV r a b c _ e f g h i j k l m n o p q) := s in mkRCV r a b c v e f g h i j k l m n o p q.
Definition set_lift_up v s :=
  let '(mkRCV r a b c d _ f g h i j k l m n o p q) := s in mkRCV r a b c d v f g h i j k l m n o p q.
Definition set_lift_down v s :=
  let '(mkRCV r a b c d e _ g h i j k l m n o p q) := s in mkRCV r a b c d e v g h i j k l m n o p q.
Definition set_head_up v s :=
  let '(mkRCV r a b c d e f _ h i j k l m n o p q) := s in mkRCV r a b c d e f v h i j k l m n o p q.
Definition set_head_down v s :=
  let '(mkRCV r a b c d e f g _ i j k l m n o p q) := s in mkRCV r a b c d e f g v i j k l m n o p q.
Definition set_torchIsEnabled v s :=
  let '(mkRCV r a b c d e f g h _ j k l m n o p q) := s in mkRCV r a b c d e f g h v j k l m n o p q.
Definition set_go_fast v s :=
  let '(mkRCV r a b c d e f g h i _ k l m n o p q) := s in mkRCV r a b c d e f g h i v k l m n o p q.
Definition set_go_slow v s :=
  let '(mkRCV r a b c d e f g h i j _ l m n o p q) := s in mkRCV r a b c d e f g h i j v l m n o p q.
Definition set_is_mouse_look_enabled v s :=
  let '(mkRCV r a b c d e f g h i j k _ m n o p q) := s in mkRCV r a b c d e f g h i j k v m n o p q.
Definition set_mouse_dir v s :=
  let '(mkRCV r a b c d e f g h i j k l _ n o p q) := s in mkRCV r a b c d e f g h i j k l v n o p q.
Definition set_anim_index_for_key v s :=
  let '(mkRCV r a b c d e f g h i j k l m n _ p q) := s in mkRCV r a b c d e f g h i j k l m n v p q.
Definition set_action_queue v s :=
  let '(mkRCV r a b c d e f g h i j k l m n o _ q) := s in mkRCV r a b c d e f g h i j k l m n o v q.
Definition set_text_to_say v s :=
  let '(mkRCV r a b c d e f g h i j k l m n o p _) := s in mkRCV r a b c d e f g h i j k l m n o p v.

(** A call on [self.vector]: the robot records it. *)
Definition call (c : Command) (s : RemoteControlVector) : RemoteControlVector :=
  set_vector (mkRobot (sent (vector s) ++ [c]) (head_angle_deg (vector s))) s.

(** ** Methods that may raise: a state and exception monad *)

Definition M (S A : Type) : Type := S → result A * S.

Definition ret {S A} (a : A) : M S A := λ s, (Ok a, s).
Definition raise {S A} (e : exn) : M S A := λ s, (Raise e, s).
Definition bind {S A B} (c : M S A) (k : A → M S B) : M S B :=
  λ s, match c s with
       | (Ok a, s') => k a s'
       | (Raise e, s') => (Raise e, s')
       end.
Definition get {S} : M S S := λ s, (Ok s, s).
Definition modify {S} (f : S → S) : M S unit := λ s, (Ok tt, f s).
Definition lift_result {S A} (r : result A) : M S A := λ s, (r, s).

Notation "'let*' x ':=' c 'in' k" := (bind c (λ x, k))
  (at level 10, x name, c at level 100, k at level 200).

Global Instance M_ret {S} : MRet (M S) := λ A, @ret S A.
Global Instance M_bind {S} : MBind (M S) := λ A B k c, @bind S A B c k.

(** ** Motion policy *)

(** [remap_to_range]: convert x (in x_min..x_max range) to out_min..out_max. *)
Definition remap_to_range (x x_min x_max out_min out_max : Q) : result Q :=
  if Qlt_le_dec x x_min then Ok out_min
  else if Qlt_le_dec x_max x then Ok out_max
  else if Qeq_bool (x_max - x_min) 0 then Raise ZeroDivisionError
  else
    let ratio := ((x - x_min) / (x_max - x_min))%Q in
    Ok (out_min + ratio * (out_max - out_min))%Q.

Definition pick_speed {A} (self : RemoteControlVector)
    (fast_speed mid_speed slow_speed : A) : A :=
  if go_fast self then
    if negb (go_slow self) then fast_speed else mid_speed
  else if go_slow self then slow_speed
  else mid_speed.

(** Reading the attributes of [self]. *)
Definition this : M RemoteControlVector RemoteControlVector := get.

Definition pass : M RemoteControlVector unit := mret tt.

Definition call_robot (c : Command) : M RemoteControlVector unit := modify (call c).

Definition update_lift : M RemoteControlVector unit :=
  let* self := this in
  let lift_speed := pick_speed self 8%Q 4%Q 2%Q in
  let lift_vel := ((b2q (lift_up self) - b2q (lift_down self)) * lift_speed)%Q in
  call_robot (SetLiftMotor lift_vel).

Definition update_head : M RemoteControlVector unit :=
  let* self := this in
  if negb (is_mouse_look_enabled self) then
    let head_speed := pick_speed self 2%Q 1%Q (1 # 2)%Q in
    let head_vel := ((b2q (head_up self) - b2q (head_down self)) * head_speed)%Q in
    call_robot (SetHeadMotor head_vel)
  else pass.

Definition update_mouse_driving : M RemoteControlVector unit :=
  let* self := this in
  let drive_dir := (b2q (drive_forwards self) - b2q (drive_back self))%Q in
  let turn_dir := ((b2q (turn_right self) - b2q (turn_left self)) + mouse_dir self)%Q in
  let turn_dir := if Qlt_le_dec drive_dir 0 then (- turn_dir)%Q else turn_dir in
  let forward_speed := pick_speed self 150%Q 75%Q 50%Q in
  let turn_speed := pick_speed self 100%Q 50%Q 30%Q in
  let l_wheel_speed := ((drive_dir * forward_speed) + (turn_speed * turn_dir))%Q in
  let r_wheel_speed := ((drive_dir * forward_speed) - (turn_speed * turn_dir))%Q in
  call_robot (SetWheelMotors l_wheel_speed r_wheel_speed
                (l_wheel_speed * 4) (r_wheel_speed * 4)).

(** ** Construction of the session *)

(** Python compares [str] values by code point, lexicographically. *)
Definition str_le (x y : string) : Prop := Is_true (String.leb x y).

Global Instance str_le_dec : RelDecision str_le.
Proof. intros x y. unfold str_le. apply _. Defined.

(** [all_anim_names.sort()] *)
Definition py_sort (l : list string) : list string := merge_sort str_le l.

Definition bad_anim_names : list string :=
  ["ANIMATION_TEST"; "soundTestAnim"].

Definition default_anims_for_keys : list string :=
  ["anim_turn_left_01";
   "anim_blackjack_victorwin_01";
   "anim_pounce_success_02";
   "anim_feedback_shutup_01";
   "anim_knowledgegraph_success_01";
   "anim_wakeword_groggyeyes_listenloop_01";
   "anim_fistbump_success_01";
   "anim_reacttoface_unidentified_01";
   "anim_rtpickup_loop_10";
   "anim_volume_stage_05"].

(** The loop [for anim_name in all_anim_names: if anim_name not in
    bad_anim_names: self.anim_names.append(anim_name)]. *)
Definition build_anim_names (all_anim_names : list string) : list string :=
  filter (λ anim_name, anim_name ∉ bad_anim_names) (py_sort all_anim_names).

Definition default_anim_error (default_key : string) : string :=
  "Error: default_anim " +:+ default_key +:+ " is not in the list of animations".

(** The loop over [default_anims_for_keys]; [out] collects what it prints. *)
Fixpoint assign_default_anims (names defaults : list string) (kI : Z)
    (table : list Z) (out : list string) : result (list Z) * list string :=
  match defaults with
  | [] => (Ok table, out)
  | default_key :: rest =>
      let '(anim_idx, out) :=
        match py_index names default_key with
        | Ok i => (i, out)
        | Raise _ => (kI, out ++ [default_anim_error default_key])
        end in
      match py_setitem table kI anim_idx with
      | Ok table => assign_default_anims names rest (kI + 1) table out
      | Raise e => (Raise e, out)
      end
  end.

(** [RemoteControlVector.__init__]. [all_anim_names] is the list the robot
    returns for [anim.anim_list] and [name_data_list] the rendering of the
    enrolled names it reports; the second component is what is printed. *)
Definition init (robot : Robot) (all_anim_names : list string)
    (name_data_list : string) : result RemoteControlVector * list string :=
  let robot := mkRobot (sent robot ++ [SetEyeColor 0 1]) (head_angle_deg robot) in
  let out := ["LIST OF NAMES"; name_data_list] in
  let names := build_anim_names all_anim_names in
  match assign_default_anims names default_anims_for_keys 0 (replicate 10 0) out with
  | (Ok table, out) =>
      (Ok (mkRCV robot false false false false false false false false
             false false false false 0%Q names table [] "Hi I'm Vector"), out)
  | (Raise e, out) => (Raise e, out)
  end.

(** ** Methods of the session *)

Definition set_anim (key_index anim_index : Z) : M RemoteControlVector unit :=
  let* self := this in
  let* table := lift_result (py_setitem (anim_index_for_key self) key_index anim_index) in
  modify (set_anim_index_for_key table).

Definition handle_mouse (mouse_x mouse_y : Q) : M RemoteControlVector unit :=
  let* self := this in
  if is_mouse_look_enabled self then
    let mouse_sensitivity := (3 # 2)%Q in
    let* dir := lift_result (remap_to_range mouse_x 0 1 (- mouse_sensitivity) mouse_sensitivity) in
    modify (set_mouse_dir dir);;
    update_mouse_driving;;
    let* desired_head_angle := lift_result (remap_to_range mouse_y 0 1 45 (- (25))) in
    let* self := this in
    let head_angle_delta := (desired_head_angle - head_angle_deg (vector self))%Q in
    let head_vel := (head_angle_delta * (3 # 100))%Q in
    call_robot (SetHeadMotor head_vel)
  else pass.

Definition set_mouse_look_enabled (enabled : bool) : M RemoteControlVector unit :=
  let* self := this in
  let was_mouse_look_enabled := is_mouse_look_enabled self in
  modify (set_is_mouse_look_enabled enabled);;
  if negb enabled then
    modify (set_mouse_dir 0%Q);;
    if was_mouse_look_enabled then
      update_mouse_driving;;
      update_head
    else pass
  else pass.

Definition update_drive_state (key_code : Z) (is_key_down speed_changed : bool)
    : M RemoteControlVector bool :=
  if key_code =? ord "W" then modify (set_drive_forwards is_key_down);; mret true
  else if key_code =? ord "S" then modify (set_drive_back is_key_down);; mret true
  else if key_code =? ord "A" then modify (set_turn_left is_key_down);; mret true
  else if key_code =? ord "D" then modify (set_turn_right is_key_down);; mret true
  else if negb speed_changed then mret false
  else mret true.

Definition update_lift_state (key_code : Z) (is_key_down speed_changed : bool)
    : M RemoteControlVector bool :=
  if key_code =? ord "R" then modify (set_lift_up is_key_down);; mret true
  else if key_code =? ord "F" then modify (set_lift_down is_key_down);; mret true
  else if negb speed_changed then mret false
  else mret true.

Definition update_head_state (key_code : Z) (is_key_down speed_changed : bool)
    : M RemoteControlVector bool :=
  if key_code =? ord "T" then modify (set_head_up is_key_down);; mret true
  else if key_code =? ord "G" then modify (set_head_down is_key_down);; mret true
  else if negb speed_changed then mret false
  else mret true.

(** The source reaches the robot through the global
    [flask_app.remote_control_vector], which is the session the method is
    called on. *)
Definition make_vector_dock_with_charger (key_code : Z)
    : M RemoteControlVector bool :=
  (if key_code =? ord "H" then call_robot DriveOnCharger else pass);;
  mret true.

Definition key_code_to_anim_name (key_code : Z) : M RemoteControlVector string :=
  let* self := this in
  let key_num := key_code - ord "0" in
  let* anim_num := lift_result (py_getitem (anim_index_for_key self) key_num) in
  let* anim_name := lift_result (py_getitem (anim_names self) anim_num) in
  mret anim_name.

Definition queue_action (new_action : Action) : M RemoteControlVector unit :=
  let* self := this in
  (if bool_decide (10 < length (action_queue self))%nat
   then modify (λ self, set_action_queue (drop 1 (action_queue self)) self)
   else pass);;
  modify (λ self, set_action_queue (action_queue self ++ [new_action]) self).

Definition handle_key (key_code : Z) (is_shift_down is_alt_down is_key_down : bool)
    : M RemoteControlVector unit :=
  let* self := this in
  let was_go_fast := go_fast self in
  let was_go_slow := go_slow self in
  modify (set_go_fast is_shift_down);;
  modify (set_go_slow is_alt_down);;
  let speed_changed :=
    xorb was_go_fast is_shift_down || xorb was_go_slow is_alt_down in
  let* update_driving := update_drive_state key_code is_key_down speed_changed in
  let* update_lift_flag := update_lift_state key_code is_key_down speed_changed in
  let* update_head_flag := update_head_state key_code is_key_down speed_changed in
  let* dock := make_vector_dock_with_charger key_code in
  (if update_driving then update_mouse_driving else pass);;
  (if update_head_flag then update_head else pass);;
  (if update_lift_flag then update_lift else pass);;
  (if dock then make_vector_dock_with_charger key_code;; pass else pass);;
  if negb is_key_down then
    if (key_code <=? ord "9") && (ord "0" <=? key_code) then
      let* anim_name := key_code_to_anim_name key_code in
      queue_action (PlayAnimation anim_name)
    else if key_code =? ord " " then
      let* self := this in
      queue_action (SayText (text_to_say self))
    else pass
  else pass.

Definition func_to_name (action : Action) : string :=
  match action with
  | SayText _ => "say_text"
  | PlayAnimation _ => "play_anim"
  end.

Definition action_args (action : Action) : string :=
  match action with
  | SayText text => text
  | PlayAnimation anim_name => anim_name
  end.

Definition action_to_text (action : Action) : string :=
  func_to_name action +:+ "( " +:+ action_args action +:+ " )".

(** [update]: try and execute the next queued action. [reports] is what
    the robot answers to the call: [true] when the value it returns is
    truthy. *)
Definition update (reports : Action → bool) : M RemoteControlVector unit :=
  let* self := this in
  match action_queue self with
  | [] => pass
  | queued :: _ =>
      call_robot (Run queued);;
      if reports queued
      then modify (λ self, set_action_queue (drop 1 (action_queue self)) self)
      else pass
  end.

(** ** The Flask application and its request handlers *)

(** [flask_app.remote_control_vector]: the session once [run] has built it,
    [None] as long as there is none (the value the guards
    [if flask_app.remote_control_vector:] test for). *)
Definition App : Type := option RemoteControlVector.

(** A method call on [flask_app.remote_control_vector]; on [None] the
    attribute access raises [AttributeError]. *)
Definition on_session {A} (c : M RemoteControlVector A) : M App A :=
  λ app, match app with
         | Some self => let '(r, self) := c self in (r, Some self)
         | None => (Raise AttributeError, None)
         end.

Definition has_session : M App bool := λ app, (Ok (bool_decide (is_Some app)), app).

Definition empty_response : M App string := mret "".

(** The decoded JSON bodies, with the fields of each endpoint. *)
Record KeyMessage : Type := mkKeyMessage {
  keyCode : Z; hasShift : bool; hasAlt : bool }.
Record MouseMessage : Type := mkMouseMessage {
  clientX : Q; clientY : Q }.
Record DropDownMessage : Type := mkDropDownMessage {
  itemName : string; selectedIndex : Z }.

Definition handle_key_event (message : KeyMessage) (is_key_down : bool)
    : M App string :=
  let* active := has_session in
  (if active then
     on_session (handle_key (keyCode message) (hasShift message)
                   (hasAlt message) is_key_down)
   else mret tt);;
  empty_response.

Definition handle_keydown (message : KeyMessage) : M App string :=
  handle_key_event message true.

Definition handle_keyup (message : KeyMessage) : M App string :=
  handle_key_event message false.

Definition handle_mousemove (message : MouseMessage) : M App string :=
  let* active := has_session in
  (if active then on_session (handle_mouse (clientX message) (clientY message))
   else mret tt);;
  empty_response.

Definition handle_setMouseLookEnabled (isMouseLookEnabled : bool) : M App string :=
  let* active := has_session in
  (if active then on_session (set_mouse_look_enabled isMouseLookEnabled)
   else mret tt);;
  empty_response.

(** [setTorchMode] calls itself, one second later, as long as the torch is
    enabled; [depth] is the number of frames the interpreter still allows. *)
Fixpoint setTorchMode (depth : nat) : M App unit :=
  match depth with
  | O => raise RecursionError
  | S depth =>
      let* active := has_session in
      if active then
        let* self := on_session this in
        if torchIsEnabled self then
          on_session (call_robot (SetEyeColor 0 0));;
          on_session (call_robot (SetScreenToColor 255 255 255 1));;
          setTorchMode depth
        else
          on_session (call_robot (SetEyeColor 0 1));;
          on_session (call_robot (SetScreenToColor 0 0 0 (1 # 100)))
      else mret tt
  end.

Definition handle_setTorchModeEnabled (depth : nat) (isTorchModeEnabled : bool)
    : M App string :=
  on_session (modify (set_torchIsEnabled isTorchModeEnabled));;
  setTorchMode depth;;
  empty_response.

Definition handle_setFreeplayEnabled (isFreeplayEnabled : bool) : M App string :=
  let* active := has_session in
  (if active then
     if isFreeplayEnabled then on_session (call_robot ReleaseControl)
     else
       on_session (call_robot RequestControl);;
       on_session (call_robot (SetEyeColor 0 1))
   else mret tt);;
  empty_response.

Definition item_name_prefix : string := "animSelector".

Section DropDown.

(** Python's built-in [int] on a string. *)
Variable py_int : string → result Z.

Definition handle_dropDownSelect (message : DropDownMessage) : M App string :=
  let item_name := itemName message in
  let* active := has_session in
  (if active && String.prefix item_name_prefix item_name then
     let suffix :=
       String.substring (String.length item_name_prefix)
         (String.length item_name - String.length item_name_prefix) item_name in
     let* item_name_index := lift_result (py_int suffix) in
     on_session (set_anim item_name_index (selectedIndex message))
   else mret tt);;
  empty_response.

End DropDown.

Definition handle_sayText (textEntered : string) : M App string :=
  let* active := has_session in
  (if active then on_session (modify (set_text_to_say textEntered))
   else mret tt);;
  empty_response.

(** The rendering loop of [handle_updateVector]. *)
Fixpoint render_queue (i : Z) (queue : list Action) : string :=
  match queue with
  | [] => ""
  | action :: rest =>
      pretty i +:+ ": " +:+ action_to_text action +:+ "<br>" +:+ render_queue (i + 1) rest
  end.

Definition newline : string := String (ascii_of_nat 10) "".

Definition handle_updateVector (reports : Action → bool) : M App string :=
  let* active := has_session in
  if active then
    on_session (update reports);;
    let* self := on_session this in
    let action_queue_text := render_queue 1 (action_queue self) in
    mret ("Action Queue:<br>" +:+ action_queue_text +:+ newline)
  else empty_response.

(** * Vocabulary of the properties *)

(** ** The motion policy in the words of the specification *)

Inductive Tier : Type := Fast | Normal | Slow.

(** The tier of a session: [pick_speed] applied to the three tier names. *)
Definition speed_tier (self : RemoteControlVector) : Tier :=
  pick_speed self Fast Normal Slow.

Definition select {A} (tier : Tier) (fast_speed mid_speed slow_speed : A) : A :=
  match tier with
  | Fast => fast_speed
  | Normal => mid_speed
  | Slow => slow_speed
  end.

(** The wheel command as the specification words it: tier tables
    Fast 150/100, Normal 75/50, Slow 50/30, mirrored steering when
    reversing, accelerations four times the speeds. *)
Definition forward_speed_of (tier : Tier) : Q := select tier 150%Q 75%Q 50%Q.
Definition turn_speed_of (tier : Tier) : Q := select tier 100%Q 50%Q 30%Q.

Definition wheel_command (drive_dir turn_dir : Q) (tier : Tier) : Command :=
  let turn_dir := if Qlt_le_dec drive_dir 0 then (- turn_dir)%Q else turn_dir in
  let left := (drive_dir * forward_speed_of tier + turn_speed_of tier * turn_dir)%Q in
  let right := (drive_dir * forward_speed_of tier - turn_speed_of tier * turn_dir)%Q in
  SetWheelMotors left right (left * 4) (right * 4).

Definition drive_dir_of (self : RemoteControlVector) : Q :=
  (b2q (drive_forwards self) - b2q (drive_back self))%Q.

Definition turn_dir_of (self : RemoteControlVector) : Q :=
  (b2q (turn_right self) - b2q (turn_left self) + mouse_dir self)%Q.

(** ** Runs of the action queue *)

(** The two operations that touch the queue: [queue_action] and [update],
    the latter with the robot's answer to the dispatched call. *)
Inductive QueueOp : Type :=
| Enqueue (new_action : Action)
| Tick (reports : Action → bool).

Definition queue_step (self : RemoteControlVector) (op : QueueOp)
    : RemoteControlVector :=
  match op with
  | Enqueue new_action => (queue_action new_action self).2
  | Tick reports => (update reports self).2
  end.

Definition queue_run (ops : list QueueOp) (self : RemoteControlVector)
    : RemoteControlVector :=
  foldl queue_step self ops.

(** ** The commands of a key event *)

(** The commands sent to the robot between two states of a session. *)
Definition emitted (self self' : RemoteControlVector) : list Command :=
  drop (length (sent (vector self))) (sent (vector self')).

Definition is_wheel_command (c : Command) : bool :=
  match c with SetWheelMotors _ _ _ _ => true | _ => false end.
Definition is_lift_command (c : Command) : bool :=
  match c with SetLiftMotor _ => true | _ => false end.
Definition is_head_command (c : Command) : bool :=
  match c with SetHeadMotor _ => true | _ => false end.
Definition is_dock_command (c : Command) : bool :=
  match c with DriveOnCharger => true | _ => false end.

Definition count_commands (p : Command → bool) (l : list Command) : nat :=
  length (List.filter p l).

Definition is_drive_key (key_code : Z) : bool :=
  (key_code =? ord "W") || (key_code =? ord "S")
  || (key_code =? ord "A") || (key_code =? ord "D").
Definition is_lift_key (key_code : Z) : bool :=
  (key_code =? ord "R") || (key_code =? ord "F").
Definition is_head_key (key_code : Z) : bool :=
  (key_code =? ord "T") || (key_code =? ord "G").

(** [speed_changed] of [handle_key]: shift or alt differs from the stored
    flag. *)
Definition speed_flags_changed (self : RemoteControlVector)
    (is_shift_down is_alt_down : bool) : bool :=
  xorb (go_fast self) is_shift_down || xorb (go_slow self) is_alt_down.

(** The two phases of [handle_key]: the motion part, and the part that
    handles a key being released. *)
Definition key_motion (key_code : Z) (is_shift_down is_alt_down is_key_down : bool)
    : M RemoteControlVector unit :=
  let* self := this in
  let was_go_fast := go_fast self in
  let was_go_slow := go_slow self in
  modify (set_go_fast is_shift_down);;
  modify (set_go_slow is_alt_down);;
  let speed_changed :=
    xorb was_go_fast is_shift_down || xorb was_go_slow is_alt_down in
  let* update_driving := update_drive_state key_code is_key_down speed_changed in
  let* update_lift_flag := update_lift_state key_code is_key_down speed_changed in
  let* update_head_flag := update_head_state key_code is_key_down speed_changed in
  let* dock := make_vector_dock_with_charger key_code in
  (if update_driving then update_mouse_driving else pass);;
  (if update_head_flag then update_head else pass);;
  (if update_lift_flag then update_lift else pass);;
  (if dock then make_vector_dock_with_charger key_code;; pass else pass).

Definition key_release (key_code : Z) (is_key_down : bool)
    : M RemoteControlVector unit :=
  if negb is_key_down then
    if (key_code <=? ord "9") && (ord "0" <=? key_code) then
      let* anim_name := key_code_to_anim_name key_code in
      queue_action (PlayAnimation anim_name)
    else if key_code =? ord " " then
      let* self := this in
      queue_action (SayText (text_to_say self))
    else pass
  else pass.

(** What the steps of a key event leave alone: the mouse-look mode, the
    catalog and the bindings. *)
Definition kept (self self' : RemoteControlVector) : Prop :=
  is_mouse_look_enabled self' = is_mouse_look_enabled self
  ∧ anim_names self' = anim_names self
  ∧ anim_index_for_key self' = anim_index_for_key self.

(** A step that sends [cmds] to the robot, in that order. *)
Definition sends (cmds : list Command) (self self' : RemoteControlVector) : Prop :=
  sent (vector self') = sent (vector self) ++ cmds ∧ kept self self'.

Definition dock_commands (key_code : Z) : list Command :=
  if key_code =? ord "H" then [DriveOnCharger] else [].

(** ** Sample inputs *)

(** Twelve distinct actions. *)
Definition twelve_actions : list Action :=
  (λ n : nat, SayText (pretty n)) <$> seq 0 12.

(** A session at rest, with an empty catalog and an empty queue. *)
Definition idle_session : RemoteControlVector :=
  mkRCV (mkRobot [] 0%Q) false false false false false false false false
    false false false false 0%Q [] (replicate 10 0) [] "Hi I'm Vector".

(** A session in which W is being held. *)
Definition holding_forward : RemoteControlVector :=
  set_drive_forwards true idle_session.

(** A robot with three animations, one of them blocked. *)
Definition small_anim_list : list string :=
  ["anim_wakeword_groggyeyes_listenloop_01"; "anim_bored_01"; "ANIMATION_TEST"].

(** ** Vocabulary of the further properties *)

(** The queue after [queue_action]: the oldest entry goes when more than ten
    are waiting. *)
Definition enqueued (queue : list Action) (new_action : Action) : list Action :=
  (if bool_decide (10 < length queue)%nat then drop 1 queue else queue)
  ++ [new_action].

(** Every binding is an index Python accepts for the catalog, and there is
    one binding per digit. *)
Definition valid_bindings (self : RemoteControlVector) : Prop :=
  length (anim_index_for_key self) = 10%nat
  ∧ Forall (λ anim_num,
              - Z.of_nat (length (anim_names self)) ≤ anim_num
              < Z.of_nat (length (anim_names self)))
      (anim_index_for_key self).

(** The attributes no key event writes. *)
Definition beyond_keys (self : RemoteControlVector) :=
  (torchIsEnabled self, is_mouse_look_enabled self, mouse_dir self,
   anim_names self, anim_index_for_key self, text_to_say self).

(** The attributes [handle_key] writes besides the queue and the robot. *)
Definition with_keys (key_code : Z) (is_shift_down is_alt_down is_key_down : bool)
    (self : RemoteControlVector) : RemoteControlVector :=
  let self := set_go_slow is_alt_down (set_go_fast is_shift_down self) in
  let self :=
    if key_code =? ord "W" then set_drive_forwards is_key_down self
    else if key_code =? ord "S" then set_drive_back is_key_down self
    else if key_code =? ord "A" then set_turn_left is_key_down self
    else if key_code =? ord "D" then set_turn_right is_key_down self
    else self in
  let self :=
    if key_code =? ord "R" then set_lift_up is_key_down self
    else if key_code =? ord "F" then set_lift_down is_key_down self
    else self in
  if key_code =? ord "T" then set_head_up is_key_down self
  else if key_code =? ord "G" then set_head_down is_key_down self
  else self.

(** A robot that always, or never, reports completion. *)
Definition always_done : Action → bool := λ _, true.
Definition never_done : Action → bool := λ _, false.

(** A session with one animation, all keys bound to it. *)
Definition one_anim_session : RemoteControlVector :=
  mkRCV (mkRobot [] 0%Q) false false false false false false false false
    false false false false 0%Q ["anim_bored_01"] (replicate 10 0) []
    "Hi I'm Vector".

(** A sequence of calls on the robot. *)
Definition call_all (cmds : list Command) (self : RemoteControlVector)
    : RemoteControlVector :=
  foldl (λ self c, call c self) self cmds.

(** The commands of a key event, computed from the session as the event
    leaves its flags: [changed] is [speed_changed]. *)
Definition motion_commands (key_code : Z) (changed : bool)
    (self : RemoteControlVector) : list Command :=
  dock_commands key_code
  ++ (if is_drive_key key_code || changed
      then [wheel_command (drive_dir_of self) (turn_dir_of self) (speed_tier self)]
      else [])
  ++ (if (is_head_key key_code || changed) && negb (is_mouse_look_enabled self)
      then [SetHeadMotor ((b2q (head_up self) - b2q (head_down self))
                          * select (speed_tier self) 2 1 (1 # 2))%Q]
      else [])
  ++ (if is_lift_key key_code || changed
      then [SetLiftMotor ((b2q (lift_up self) - b2q (lift_down self))
                          * select (speed_tier self) 8 4 2)%Q]
      else [])
  ++ dock_commands key_code.

Definition is_digit_key (key_code : Z) : bool :=
  (key_code <=? ord "9") && (ord "0" <=? key_code).

(** The two calls of one round of [setTorchMode] while the torch is on. *)
Definition torch_round : list Command :=
  [SetEyeColor 0 0; SetScreenToColor 255 255 255 1].

(** A stand-in for Python's [int] that reads one decimal digit. *)
Definition int_of_digit (s : string) : result Z :=
  match s with
  | String c "" =>
      if (ord "0" <=? ord c) && (ord c <=? ord "9") then Ok (ord c - ord "0")
      else Raise ValueError
  | _ => Raise ValueError
  end.

Definition first_char (s : string) : option ascii :=
  match s with String c _ => Some c | EmptyString => None end.





(** * Properties *)

(** ** Motion policy: the speed tier and the wheel command *)

Lemma pick_speed_select {A} self (fast_speed mid_speed slow_speed : A) :
  pick_speed self fast_speed mid_speed slow_speed
  = select (speed_tier self) fast_speed mid_speed slow_speed.
Proof.
  unfold speed_tier, pick_speed.
  destruct (go_fast self), (go_slow self); reflexivity.
Qed.


(** C2: the tier is a function of the two flags alone: Fast exactly when
    [go_fast] is set and [go_slow] is not, Slow exactly when [go_slow] is set
    and [go_fast] is not, Normal otherwise (both set or both unset); and
    [pick_speed] returns its first, third or second argument accordingly. *)
Theorem pick_speed_tier self :
  (∀ A (fast_speed mid_speed slow_speed : A),
     pick_speed self fast_speed mid_speed slow_speed
     = match go_fast self, go_slow self with
       | true, true => mid_speed
       | true, false => fast_speed
       | false, true => slow_speed
       | false, false => mid_speed
       end)
  ∧ (speed_tier self = Fast ↔ go_fast self = true ∧ go_slow self = false)
  ∧ (speed_tier self = Slow ↔ go_slow self = true ∧ go_fast self = false)
  ∧ (speed_tier self = Normal ↔ go_fast self = go_slow self).
Proof.
  unfold speed_tier, pick_speed.
  destruct (go_fast self), (go_slow self); cbn; intuition congruence.
Qed.

(** ** The action queue *)

Lemma action_queue_set q self : action_queue (set_action_queue q self) = q.
Proof. destruct self; reflexivity. Qed.

Lemma action_queue_call c self : action_queue (call c self) = action_queue self.
Proof. destruct self; reflexivity. Qed.

Lemma queue_action_queue a self :
  action_queue (queue_action a self).2
  = (if bool_decide (10 < length (action_queue self))%nat
     then drop 1 (action_queue self) else action_queue self) ++ [a].
Proof.
  unfold queue_action, this, pass, bind, get, modify, mbind, M_bind, bind, mret, M_ret, ret.
  case_bool_decide; cbn; rewrite !action_queue_set; reflexivity.
Qed.

Lemma update_queue reports self :
  (update reports self).1 = Ok tt
  ∧ action_queue (update reports self).2
    = match action_queue self with
      | [] => []
      | queued :: rest => if reports queued then rest else queued :: rest
      end.
Proof.
  unfold update, this, pass, call_robot, bind, get, modify, mbind, M_bind, bind, mret, M_ret, ret.
  destruct (action_queue self) as [|queued rest] eqn:Hq; [cbn; by rewrite Hq|].
  destruct (reports queued); cbn.
  - by rewrite action_queue_set, action_queue_call, Hq.
  - by rewrite action_queue_call, Hq.
Qed.

Local Arguments queue_action : simpl never.
Local Arguments update : simpl never.

Lemma queue_run_cons op ops self :
  queue_run (op :: ops) self = queue_run ops (queue_step self op).
Proof. reflexivity. Qed.

Lemma queue_run_snoc op ops self :
  queue_run (ops ++ [op]) self = queue_step (queue_run ops self) op.
Proof. unfold queue_run. by rewrite foldl_app. Qed.

Lemma queue_step_enqueue a self :
  queue_step self (Enqueue a) = (queue_action a self).2.
Proof. reflexivity. Qed.

Lemma queue_step_bound self op :
  (length (action_queue self) ≤ 11)%nat →
  (length (action_queue (queue_step self op)) ≤ 11)%nat.
Proof.
  intros Hle. destruct op as [a|reports]; cbn.
  - rewrite queue_action_queue. case_bool_decide; rewrite length_app; cbn.
    + rewrite length_drop. lia.
    + lia.
  - destruct (update_queue reports self) as [_ ->].
    destruct (action_queue self) as [|queued rest]; [cbn; lia|].
    destruct (reports queued); cbn in *; lia.
Qed.

Lemma queue_run_bound ops self :
  (length (action_queue self) ≤ 11)%nat →
  (length (action_queue (queue_run ops self)) ≤ 11)%nat.
Proof.
  revert self. induction ops as [|op ops IH]; intros self Hle; [done|].
  rewrite queue_run_cons. apply IH, queue_step_bound, Hle.
Qed.

Lemma queue_run_enqueue_short acts self :
  (length (action_queue self) + length acts ≤ 11)%nat →
  action_queue (queue_run (Enqueue <$> acts) self) = action_queue self ++ acts.
Proof.
  revert self. induction acts as [|a acts IH]; intros self Hle.
  - cbn. by rewrite app_nil_r.
  - rewrite fmap_cons, queue_run_cons, queue_step_enqueue. cbn in Hle.
    rewrite IH; rewrite queue_action_queue;
      (case_bool_decide; [lia|]).
    + by rewrite <- app_assoc.
    + rewrite length_app. cbn. lia.
Qed.

(** C3: starting from the empty queue, after any sequence of [queue_action]
    and [update] calls the queue holds at most 11 actions; when it holds 11,
    a further [queue_action] drops exactly the oldest entry and appends the
    new one at the tail, the others keeping their order; and enqueuing 12
    actions onto the empty queue leaves the last 11 of them, in order. *)
Theorem action_queue_bounded ops self :
  action_queue self = [] →
  let self' := queue_run ops self in
  (length (action_queue self') ≤ 11)%nat
  ∧ (∀ new_action,
       length (action_queue self') = 11%nat →
       ∃ oldest rest,
         action_queue self' = oldest :: rest
         ∧ action_queue (queue_action new_action self').2 = rest ++ [new_action])
  ∧ (∀ acts,
       length acts = 12%nat →
       ∃ first survivors,
         acts = first :: survivors
         ∧ length survivors = 11%nat
         ∧ action_queue (queue_run (Enqueue <$> acts) self) = survivors).
Proof.
  intros Hempty self'. split; [|split].
  - apply queue_run_bound. rewrite Hempty. cbn. lia.
  - intros new_action Hfull. rewrite queue_action_queue.
    destruct (action_queue self') as [|oldest rest]; [done|].
    exists oldest, rest. split; [done|].
    case_bool_decide; [done|lia].
  - intros acts Hlen.
    destruct acts as [|first survivors]; [done|].
    exists first, survivors. cbn in Hlen. split; [done|]. split; [lia|].
    assert (Hsplit : survivors = take 10 survivors ++ drop 10 survivors)
      by (by rewrite take_drop).
    destruct (drop 10 survivors) as [|last [|]] eqn:Hd.
    + apply (f_equal length) in Hd. rewrite length_drop in Hd. cbn in Hd. lia.
    + rewrite Hsplit at 1. rewrite app_comm_cons, fmap_app. cbn [fmap list_fmap].
      rewrite queue_run_snoc, queue_step_enqueue, queue_action_queue.
      change (Enqueue first :: (Enqueue <$> take 10 survivors))
        with (Enqueue <$> first :: take 10 survivors).
      rewrite queue_run_enqueue_short; rewrite Hempty; cbn [app length].
      * rewrite length_take. case_bool_decide; [|lia].
        cbn [drop]. rewrite drop_0. by rewrite Hsplit at 2.
      * rewrite length_take. lia.
    + apply (f_equal length) in Hd. rewrite length_drop in Hd. cbn in Hd. lia.
Qed.

(** Twelve actions enqueued on the session at rest. *)
Lemma action_queue_bounded_witness :
  action_queue idle_session = []
  ∧ (length (action_queue (queue_run (Enqueue <$> twelve_actions) idle_session)) ≤ 11)%nat.
Proof.
  split; [reflexivity|].
  apply (action_queue_bounded (Enqueue <$> twelve_actions) idle_session).
  reflexivity.
Defined.

(** C4: [update] never raises and removes at most the head of the queue:
    on the empty queue it changes nothing at all; on a non-empty queue it
    dispatches the head to the robot and pops it, the rest keeping their
    order, exactly when the robot's answer is truthy; otherwise the queue
    is left as it was. *)
Theorem update_pops_at_most_head reports self :
  (update reports self).1 = Ok tt
  ∧ match action_queue self with
    | [] => (update reports self).2 = self
    | queued :: rest =>
        action_queue (update reports self).2
        = (if reports queued then rest else queued :: rest)
        ∧ sent (vector (update reports self).2)
          = sent (vector self) ++ [Run queued]
    end.
Proof.
  split; [apply update_queue|].
  destruct (update_queue reports self) as [_ Hq]. revert Hq.
  unfold update, this, pass, call_robot, bind, get, modify, mbind, M_bind, bind, mret, M_ret, ret.
  destruct (action_queue self) as [|queued rest] eqn:Hself; [done|].
  intros Hq. split; [exact Hq|].
  destruct self; destruct (reports queued); reflexivity.
Qed.

(** ** Request handlers without a session *)

(** With no session every guarded handler answers the empty body and leaves
    the application as it is. *)
Lemma guarded_handlers_without_session py_int :
  (∀ message is_key_down, handle_key_event message is_key_down None = (Ok "", None))
  ∧ (∀ message, handle_keydown message None = (Ok "", None))
  ∧ (∀ message, handle_keyup message None = (Ok "", None))
  ∧ (∀ message, handle_mousemove message None = (Ok "", None))
  ∧ (∀ enabled, handle_setMouseLookEnabled enabled None = (Ok "", None))
  ∧ (∀ enabled, handle_setFreeplayEnabled enabled None = (Ok "", None))
  ∧ (∀ message, handle_dropDownSelect py_int message None = (Ok "", None))
  ∧ (∀ text, handle_sayText text None = (Ok "", None))
  ∧ (∀ reports, handle_updateVector reports None = (Ok "", None)).
Proof. repeat split. Qed.

(** C5: [handle_setTorchModeEnabled] assigns [torchIsEnabled] on
    [flask_app.remote_control_vector] before any test of it: with no session
    the request raises [AttributeError] instead of completing as a no-op,
    whatever the flag sent and however deep the interpreter may recurse. *)
Theorem handle_setTorchModeEnabled_without_session depth isTorchModeEnabled :
  handle_setTorchModeEnabled depth isTorchModeEnabled None
  = (Raise AttributeError, None).
Proof. reflexivity. Qed.

(** ** Key events: which commands reach the robot *)

Ltac run_monad :=
  unfold this, pass, call_robot, lift_result, raise, get, modify,
    mbind, M_bind, mret, M_ret, bind, ret in *.

Lemma key_motion_ok key_code is_shift_down is_alt_down is_key_down self :
  (key_motion key_code is_shift_down is_alt_down is_key_down self).1 = Ok tt.
Proof.
  unfold key_motion, update_drive_state, update_lift_state, update_head_state,
    make_vector_dock_with_charger, update_mouse_driving, update_head, update_lift.
  run_monad.
  repeat (match goal with |- context [if ?b then _ else _] => destruct b end; cbn);
    reflexivity.
Qed.

Lemma handle_key_phases key_code is_shift_down is_alt_down is_key_down self :
  handle_key key_code is_shift_down is_alt_down is_key_down self
  = (key_motion key_code is_shift_down is_alt_down is_key_down;;
     key_release key_code is_key_down) self.
Proof.
  unfold handle_key, key_motion, key_release. run_monad.
  repeat (match goal with |- context [match ?c ?s with _ => _ end] =>
            destruct (c s) as [[?|?] ?] end; cbn); reflexivity.
Qed.

Lemma vector_set_action_queue q self : vector (set_action_queue q self) = vector self.
Proof. by destruct self. Qed.

Lemma queue_action_vector a self : vector (queue_action a self).2 = vector self.
Proof.
  unfold queue_action. run_monad.
  case_bool_decide; cbn; by rewrite !vector_set_action_queue.
Qed.

Lemma key_code_to_anim_name_state key_code self :
  (key_code_to_anim_name key_code self).2 = self.
Proof.
  unfold key_code_to_anim_name. run_monad.
  destruct (py_getitem (anim_index_for_key self) _) as [anim_num|]; [|done].
  by destruct (py_getitem (anim_names self) anim_num).
Qed.

Lemma key_release_vector key_code is_key_down self :
  vector (key_release key_code is_key_down self).2 = vector self.
Proof.
  unfold key_release.
  destruct is_key_down; cbn [negb]; [done|].
  destruct (_ && _).
  - unfold bind.
    pose proof (key_code_to_anim_name_state key_code self) as Hst.
    destruct (key_code_to_anim_name key_code self) as [[anim_name|e] self1];
      cbn in Hst; subst self1; [|done].
    apply queue_action_vector.
  - destruct (_ =? _); [|done].
    unfold bind, this, get. apply queue_action_vector.
Qed.

Lemma handle_key_vector key_code is_shift_down is_alt_down is_key_down self :
  vector (handle_key key_code is_shift_down is_alt_down is_key_down self).2
  = vector (key_motion key_code is_shift_down is_alt_down is_key_down self).2.
Proof.
  rewrite handle_key_phases. unfold mbind, M_bind, bind.
  pose proof (key_motion_ok key_code is_shift_down is_alt_down is_key_down self) as Hok.
  destruct (key_motion _ _ _ _ self) as [[[]|e] self1]; [|done].
  apply key_release_vector.
Qed.

Lemma emitted_app self self' cmds :
  sent (vector self') = sent (vector self) ++ cmds →
  emitted self self' = cmds.
Proof. unfold emitted. intros ->. apply drop_app_length. Qed.

Lemma sends_nothing self self' :
  vector self' = vector self → kept self self' → sends [] self self'.
Proof. intros Hv Hk. split; [|done]. by rewrite Hv, app_nil_r. Qed.

Lemma sends_trans cmds1 cmds2 self1 self2 self3 :
  sends cmds1 self1 self2 → sends cmds2 self2 self3 →
  sends (cmds1 ++ cmds2) self1 self3.
Proof.
  intros [Hs1 (Hm1 & Hn1 & Ht1)] [Hs2 (Hm2 & Hn2 & Ht2)]. split.
  - by rewrite Hs2, Hs1, app_assoc.
  - repeat split; congruence.
Qed.

Lemma sends_call c self : sends [c] self (call c self).
Proof. by destruct self. Qed.

Local Ltac step_done :=
  eexists; split; [reflexivity|by apply sends_nothing].

Lemma update_drive_state_spec key_code is_key_down speed_changed self :
  ∃ self', update_drive_state key_code is_key_down speed_changed self
           = (Ok (is_drive_key key_code || speed_changed), self')
           ∧ sends [] self self'.
Proof.
  unfold update_drive_state, is_drive_key. run_monad.
  destruct self.
  destruct (key_code =? ord "W"); [step_done|].
  destruct (key_code =? ord "S"); [step_done|].
  destruct (key_code =? ord "A"); [step_done|].
  destruct (key_code =? ord "D"); [step_done|].
  destruct speed_changed; step_done.
Qed.

Lemma update_lift_state_spec key_code is_key_down speed_changed self :
  ∃ self', update_lift_state key_code is_key_down speed_changed self
           = (Ok (is_lift_key key_code || speed_changed), self')
           ∧ sends [] self self'.
Proof.
  unfold update_lift_state, is_lift_key. run_monad.
  destruct self.
  destruct (key_code =? ord "R"); [step_done|].
  destruct (key_code =? ord "F"); [step_done|].
  destruct speed_changed; step_done.
Qed.

Lemma update_head_state_spec key_code is_key_down speed_changed self :
  ∃ self', update_head_state key_code is_key_down speed_changed self
           = (Ok (is_head_key key_code || speed_changed), self')
           ∧ sends [] self self'.
Proof.
  unfold update_head_state, is_head_key. run_monad.
  destruct self.
  destruct (key_code =? ord "T"); [step_done|].
  destruct (key_code =? ord "G"); [step_done|].
  destruct speed_changed; step_done.
Qed.

Lemma make_vector_dock_with_charger_spec key_code self :
  ∃ self', make_vector_dock_with_charger key_code self = (Ok true, self')
           ∧ sends (dock_commands key_code) self self'.
Proof.
  unfold make_vector_dock_with_charger, dock_commands. run_monad.
  destruct (key_code =? ord "H"); eexists; (split; [reflexivity|]).
  - apply sends_call.
  - by apply sends_nothing.
Qed.

Lemma update_mouse_driving_spec (b : bool) self :
  ∃ c self', is_wheel_command c = true
    ∧ (if b then update_mouse_driving else pass) self = (Ok tt, self')
    ∧ sends (if b then [c] else []) self self'.
Proof.
  destruct b.
  - unfold update_mouse_driving. run_monad. cbv beta iota zeta.
    eexists (SetWheelMotors _ _ _ _), _.
    split; [done|]. split; [reflexivity|apply sends_call].
  - exists (SetWheelMotors 0 0 0 0), self.
    split; [done|]. split; [reflexivity|by apply sends_nothing].
Qed.

Lemma update_lift_spec (b : bool) self :
  ∃ c self', is_lift_command c = true
    ∧ (if b then update_lift else pass) self = (Ok tt, self')
    ∧ sends (if b then [c] else []) self self'.
Proof.
  destruct b.
  - unfold update_lift. run_monad. cbv beta iota zeta.
    eexists (SetLiftMotor _), _.
    split; [done|]. split; [reflexivity|apply sends_call].
  - exists (SetLiftMotor 0), self.
    split; [done|]. split; [reflexivity|by apply sends_nothing].
Qed.

Lemma update_head_spec (b : bool) self :
  ∃ c self', is_head_command c = true
    ∧ (if b then update_head else pass) self = (Ok tt, self')
    ∧ sends (if b && negb (is_mouse_look_enabled self) then [c] else []) self self'.
Proof.
  destruct b; cbn [andb].
  - unfold update_head. run_monad. cbv beta iota zeta.
    destruct (is_mouse_look_enabled self); cbn [negb].
    + exists (SetHeadMotor 0), self.
      split; [done|]. split; [reflexivity|by apply sends_nothing].
    + eexists (SetHeadMotor _), _.
      split; [done|]. split; [reflexivity|apply sends_call].
  - exists (SetHeadMotor 0), self.
    split; [done|]. split; [reflexivity|by apply sends_nothing].
Qed.

(** The commands of the motion part of a key event, in the order they are
    sent: the dock call, the wheel, head and lift commands, the dock call
    again. *)
Lemma key_motion_sends key_code is_shift_down is_alt_down is_key_down self :
  ∃ wheel lift head,
    is_wheel_command wheel = true ∧ is_lift_command lift = true
    ∧ is_head_command head = true
    ∧ let changed := speed_flags_changed self is_shift_down is_alt_down in
      sends
        (dock_commands key_code
         ++ (if is_drive_key key_code || changed then [wheel] else [])
         ++ (if (is_head_key key_code || changed)
                && negb (is_mouse_look_enabled self) then [head] else [])
         ++ (if is_lift_key key_code || changed then [lift] else [])
         ++ dock_commands key_code)
        self
        (key_motion key_code is_shift_down is_alt_down is_key_down self).2.
Proof.
  unfold key_motion, speed_flags_changed. unfold this, modify, get, mbind, M_bind, bind.
  cbv beta iota zeta.
  set (changed := xorb (go_fast self) is_shift_down || xorb (go_slow self) is_alt_down).
  set (self0 := set_go_slow is_alt_down (set_go_fast is_shift_down self)).
  assert (H0 : sends [] self self0) by (destruct self; by apply sends_nothing).
  destruct (update_drive_state_spec key_code is_key_down changed self0)
    as (self1 & -> & H1).
  destruct (update_lift_state_spec key_code is_key_down changed self1)
    as (self2 & -> & H2).
  destruct (update_head_state_spec key_code is_key_down changed self2)
    as (self3 & -> & H3).
  destruct (make_vector_dock_with_charger_spec key_code self3) as (self4 & -> & H4).
  destruct (update_mouse_driving_spec (is_drive_key key_code || changed) self4)
    as (wheel & self5 & Hwheel & -> & H5).
  destruct (update_head_spec (is_head_key key_code || changed) self5)
    as (head & self6 & Hhead & -> & H6).
  destruct (update_lift_spec (is_lift_key key_code || changed) self6)
    as (lift & self7 & Hlift & -> & H7).
  destruct (make_vector_dock_with_charger_spec key_code self7) as (self8 & -> & H8).
  exists wheel, lift, head. repeat (split; [assumption|]).
  assert (Hml : is_mouse_look_enabled self5 = is_mouse_look_enabled self).
  { apply (sends_trans _ _ _ _ _ H0 (sends_trans _ _ _ _ _ H1
      (sends_trans _ _ _ _ _ H2 (sends_trans _ _ _ _ _ H3
      (sends_trans _ _ _ _ _ H4 H5))))). }
  rewrite Hml in H6.
  pose proof (sends_trans _ _ _ _ _ H0 (sends_trans _ _ _ _ _ H1
    (sends_trans _ _ _ _ _ H2 (sends_trans _ _ _ _ _ H3 (sends_trans _ _ _ _ _ H4
    (sends_trans _ _ _ _ _ H5 (sends_trans _ _ _ _ _ H6
    (sends_trans _ _ _ _ _ H7 H8)))))))) as Hall.
  exact Hall.
Qed.

Lemma count_commands_app p l1 l2 :
  count_commands p (l1 ++ l2) = (count_commands p l1 + count_commands p l2)%nat.
Proof. unfold count_commands. by rewrite List.filter_app, length_app. Qed.

(** What a key event sends, axis by axis. *)
Lemma handle_key_counts key_code is_shift_down is_alt_down is_key_down self :
  let self' := (handle_key key_code is_shift_down is_alt_down is_key_down self).2 in
  let changed := speed_flags_changed self is_shift_down is_alt_down in
  count_commands is_wheel_command (emitted self self')
  = Nat.b2n (is_drive_key key_code || changed)
  ∧ count_commands is_lift_command (emitted self self')
    = Nat.b2n (is_lift_key key_code || changed)
  ∧ count_commands is_head_command (emitted self self')
    = Nat.b2n ((is_head_key key_code || changed) && negb (is_mouse_look_enabled self))
  ∧ count_commands is_dock_command (emitted self self')
    = (if key_code =? ord "H" then 2%nat else 0%nat).
Proof.
  cbv zeta.
  destruct (key_motion_sends key_code is_shift_down is_alt_down is_key_down self)
    as (wheel & lift & head & Hwheel & Hlift & Hhead & Hsent & _).
  unfold emitted. rewrite handle_key_vector, Hsent, drop_app_length.
  rewrite !count_commands_app. unfold dock_commands.
  destruct wheel; try discriminate Hwheel.
  destruct lift; try discriminate Hlift.
  destruct head; try discriminate Hhead.
  destruct (key_code =? ord "H"), (is_drive_key key_code || _),
    (is_lift_key key_code || _), ((is_head_key key_code || _) && _);
    repeat split.
Qed.

(** The key-repeat of a held W: the intent state and the tier are what they
    were, and a wheel command is sent all the same. *)
Lemma handle_key_repeat_emits :
  let self := holding_forward in
  let self' := (handle_key (ord "W") false false true self).2 in
  emitted self self' = [SetWheelMotors 75 75 300 300]
  ∧ (drive_forwards self', drive_back self', turn_left self', turn_right self')
    = (drive_forwards self, drive_back self, turn_left self, turn_right self)
  ∧ (go_fast self', go_slow self') = (go_fast self, go_slow self)
  ∧ speed_tier self' = speed_tier self
  ∧ mouse_dir self' = mouse_dir self.
Proof. vm_compute. repeat split. Qed.

(** C6, as the code has it: during [handle_key] exactly one wheel command
    is sent when the key is one of W, S, A, D or when shift/alt differ from
    the stored [go_fast]/[go_slow], and none otherwise; the same for the lift
    with R, F; the same for the head with T, G, but only while mouse-look is
    disabled. Whether the flag or the tier took a new value plays no part. *)
Theorem handle_key_motor_commands
    key_code is_shift_down is_alt_down is_key_down self :
  let self' := (handle_key key_code is_shift_down is_alt_down is_key_down self).2 in
  let changed := speed_flags_changed self is_shift_down is_alt_down in
  count_commands is_wheel_command (emitted self self')
  = Nat.b2n (is_drive_key key_code || changed)
  ∧ count_commands is_lift_command (emitted self self')
    = Nat.b2n (is_lift_key key_code || changed)
  ∧ count_commands is_head_command (emitted self self')
    = Nat.b2n ((is_head_key key_code || changed) && negb (is_mouse_look_enabled self)).
Proof.
  pose proof (handle_key_counts key_code is_shift_down is_alt_down is_key_down self)
    as (Hw & Hl & Hh & _).
  cbv zeta. auto.
Qed.

(** C7: [handle_key] calls [drive_on_charger] twice for the key code of H
    and never for another key code, whether the key goes down or up: the
    release of H docks as well. *)
Theorem handle_key_docks_on_release
    key_code is_shift_down is_alt_down is_key_down self :
  let self' := (handle_key key_code is_shift_down is_alt_down is_key_down self).2 in
  count_commands is_dock_command (emitted self self')
  = (if key_code =? ord "H" then 2%nat else 0%nat)
  ∧ emitted idle_session (handle_key (ord "H") false false false idle_session).2
    = [DriveOnCharger; DriveOnCharger].
Proof.
  split; [|reflexivity].
  apply (handle_key_counts key_code is_shift_down is_alt_down is_key_down self).
Qed.

(** ** The animation catalog and the key bindings *)

Lemma ascii_compare_N a b :
  Ascii.compare a b = N.compare (N_of_ascii a) (N_of_ascii b).
Proof. reflexivity. Qed.

Lemma string_leb_trans a b c :
  String.leb a b = true → String.leb b c = true → String.leb a c = true.
Proof.
  unfold String.leb. revert b c.
  induction a as [|x a IH]; intros [|y b] [|z c]; cbn; try done.
  rewrite !ascii_compare_N.
  destruct (N.compare_spec (N_of_ascii x) (N_of_ascii y)) as [Hxy|Hxy|Hxy];
    destruct (N.compare_spec (N_of_ascii y) (N_of_ascii z)) as [Hyz|Hyz|Hyz];
    try done; intros Hab Hbc.
  - rewrite Hxy, Hyz, N.compare_refl. by apply (IH b c).
  - rewrite Hxy. by apply N.compare_lt_iff in Hyz as ->.
  - rewrite <- Hyz. by apply N.compare_lt_iff in Hxy as ->.
  - assert (Hxz : (N_of_ascii x < N_of_ascii z)%N) by lia.
    by apply N.compare_lt_iff in Hxz as ->.
Qed.

Global Instance str_le_trans : Transitive str_le.
Proof.
  intros a b c Hab%Is_true_true Hbc%Is_true_true.
  apply Is_true_true. by apply (string_leb_trans a b c).
Qed.

Global Instance str_le_total : Total str_le.
Proof.
  intros a b. unfold str_le.
  destruct (String.leb_total a b) as [->| ->]; [by left|by right].
Qed.

Lemma StronglySorted_filter {A} (R : relation A) (P : A → Prop)
    `{∀ x, Decision (P x)} l :
  StronglySorted R l → StronglySorted R (filter P l).
Proof.
  induction 1 as [|x l Hl IH Hx]; [constructor|].
  rewrite filter_cons. destruct (decide (P x)); [|done].
  constructor; [done|].
  apply Forall_forall. intros y [_ Hy]%list_elem_of_filter.
  by apply (proj1 (Forall_forall _ _) Hx).
Qed.

(** A name sent twice by the robot is twice in the catalog. *)
Lemma build_anim_names_keeps_duplicates :
  build_anim_names ["anim_b"; "anim_a"; "anim_b"] = ["anim_a"; "anim_b"; "anim_b"]
  ∧ ¬ NoDup (build_anim_names ["anim_b"; "anim_a"; "anim_b"]).
Proof.
  split; [reflexivity|].
  change (¬ NoDup ["anim_a"; "anim_b"; "anim_b"]).
  intros Hnd. apply NoDup_cons in Hnd as [_ Hnd].
  apply NoDup_cons in Hnd as [Hin _]. apply Hin. by left.
Qed.

(** C9, as the code has it: the catalog is sorted by code point, and it is
    a rearrangement of the supplied names that are not in the blocklist,
    each kept as many times as the robot supplied it; a name is in the
    catalog exactly when it was supplied and is not blocked. *)
Theorem build_anim_names_sorted_filtered all_anim_names :
  Sorted str_le (build_anim_names all_anim_names)
  ∧ build_anim_names all_anim_names
    ≡ₚ filter (λ anim_name, anim_name ∉ bad_anim_names) all_anim_names
  ∧ (∀ anim_name,
       anim_name ∈ build_anim_names all_anim_names
       ↔ anim_name ∈ all_anim_names ∧ anim_name ∉ bad_anim_names).
Proof.
  unfold build_anim_names, py_sort. split; [|split].
  - apply StronglySorted_Sorted, StronglySorted_filter, StronglySorted_merge_sort; apply _.
  - by rewrite merge_sort_Permutation.
  - intros anim_name. rewrite list_elem_of_filter, merge_sort_Permutation. tauto.
Qed.

Lemma py_slot_in_range {A} (l : list A) (k : nat) :
  (k < length l)%nat → py_slot l (Z.of_nat k) = Some k.
Proof.
  intros Hk. unfold py_slot.
  rewrite bool_decide_eq_true_2 by lia. by rewrite Nat2Z.id.
Qed.

Lemma py_index_Ok names x i :
  py_index names x = Ok i →
  0 ≤ i < Z.of_nat (length names) ∧ names !! Z.to_nat i = Some x.
Proof.
  revert i. induction names as [|y names IH]; intros i; cbn; [done|].
  destruct (String.eqb_spec y x) as [->|Hne].
  - intros [= <-]. split; [lia|done].
  - destruct (py_index names x) as [j|e]; [|done].
    intros [= <-]. destruct (IH j eq_refl) as [Hj Hlook].
    split; [lia|]. by replace (Z.to_nat (1 + j)) with (S (Z.to_nat j)) by lia.
Qed.

Lemma py_index_Raise names x e : py_index names x = Raise e → x ∉ names.
Proof.
  induction names as [|y names IH]; cbn; [intros _; apply not_elem_of_nil|].
  destruct (String.eqb_spec y x) as [->|Hne]; [done|].
  destruct (py_index names x) as [j|e']; [done|].
  intros [= ->]. apply not_elem_of_cons. split; [done|]. by apply IH.
Qed.

(** The loop over the default names: it never raises on a table that has a
    slot for each of them, and fills slot [kI + j] for the [j]-th name. *)
Lemma assign_default_anims_spec names defaults (kI : nat) table out :
  (kI + length defaults ≤ length table)%nat →
  ∃ table' out',
    assign_default_anims names defaults (Z.of_nat kI) table out = (Ok table', out')
    ∧ length table' = length table
    ∧ (∀ j, (j < kI)%nat → table' !! j = table !! j)
    ∧ (∀ message, message ∈ out → message ∈ out')
    ∧ (∀ j default_key,
         defaults !! j = Some default_key →
         match py_index names default_key with
         | Ok i => table' !! (kI + j)%nat = Some i
         | Raise _ =>
             table' !! (kI + j)%nat = Some (Z.of_nat (kI + j))
             ∧ default_anim_error default_key ∈ out'
         end).
Proof.
  revert kI table out.
  induction defaults as [|default_key rest IH]; intros kI table out Hlen.
  { exists table, out. cbn. repeat split; try done. }
  cbn [assign_default_anims]. cbn [length] in Hlen.
  set (found := py_index names default_key).
  set (anim_idx := match found with Ok i => i | Raise _ => Z.of_nat kI end).
  set (out1 := match found with
               | Ok _ => out
               | Raise _ => out ++ [default_anim_error default_key]
               end).
  replace (match found with
           | Ok i => (i, out)
           | Raise _ => (Z.of_nat kI, out ++ [default_anim_error default_key])
           end) with (anim_idx, out1) by (subst anim_idx out1; by destruct found).
  unfold py_setitem. rewrite py_slot_in_range by lia.
  replace (Z.of_nat kI + 1) with (Z.of_nat (S kI)) by lia.
  destruct (IH (S kI) (<[kI:=anim_idx]> table) out1)
    as (table' & out' & -> & Hlen' & Hlow & Hout & Hslots).
  { rewrite length_insert. lia. }
  exists table', out'. split; [done|].
  rewrite length_insert in Hlen'. split; [done|].
  assert (Hhere : table' !! kI = Some anim_idx).
  { rewrite Hlow by lia. apply list_lookup_insert_eq. lia. }
  split; [|split].
  - intros j Hj. rewrite Hlow by lia. apply list_lookup_insert_ne. lia.
  - intros message Hin. apply Hout. subst out1.
    destruct found; [done|]. apply elem_of_app. by left.
  - intros [|j] key Hkey; cbn in Hkey.
    + injection Hkey as <-. rewrite Nat.add_0_r. fold found.
      subst anim_idx out1. destruct found; [done|].
      split; [done|]. apply Hout, elem_of_app. right. by apply list_elem_of_singleton.
    + specialize (Hslots j key Hkey).
      by replace (kI + S j)%nat with (S kI + j)%nat by lia.
Qed.

(** A robot that knows a single animation: every default name is missing
    from the catalog, slot 3 is bound to index 3, and the catalog has no
    entry 3. *)
Lemma init_short_catalog :
  ∃ self out,
    init (mkRobot [] 0%Q) ["anim_bored_01"] "[]" = (Ok self, out)
    ∧ anim_names self = ["anim_bored_01"]
    ∧ anim_index_for_key self = [0; 1; 2; 3; 4; 5; 6; 7; 8; 9]
    ∧ py_getitem (anim_index_for_key self) 3 = Ok 3
    ∧ py_getitem (anim_names self) 3 = Raise IndexError.
Proof. eexists _, _. repeat split. Qed.

(** C8, as the code has it: construction never raises and binds each of the
    ten key slots; slot [k] holds the position of the first occurrence of
    its default name in the catalog when the name is there (a valid index),
    and otherwise its own number [k], after printing the error message for
    that name; the fallback [k] is a valid index only when the catalog has
    more than [k] entries. *)
Theorem init_default_bindings robot all_anim_names name_data_list k default_key :
  default_anims_for_keys !! k = Some default_key →
  ∃ self out,
    init robot all_anim_names name_data_list = (Ok self, out)
    ∧ anim_names self = build_anim_names all_anim_names
    ∧ length (anim_index_for_key self) = 10%nat
    ∧ match py_index (anim_names self) default_key with
      | Ok i =>
          anim_index_for_key self !! k = Some i
          ∧ 0 ≤ i < Z.of_nat (length (anim_names self))
          ∧ anim_names self !! Z.to_nat i = Some default_key
      | Raise _ =>
          anim_index_for_key self !! k = Some (Z.of_nat k)
          ∧ (default_key ∉ anim_names self)
          ∧ default_anim_error default_key ∈ out
          ∧ ((k < length (anim_names self))%nat ↔ is_Some (anim_names self !! k))
      end.
Proof.
  intros Hkey. unfold init.
  set (names := build_anim_names all_anim_names).
  destruct (assign_default_anims_spec names default_anims_for_keys 0
              (replicate 10 0) ["LIST OF NAMES"; name_data_list])
    as (table & out & Hrun & Hlen & _ & _ & Hslots); [cbn; lia|].
  change (Z.of_nat 0) with 0 in Hrun. rewrite Hrun.
  eexists _, out. split; [reflexivity|]. cbn [anim_names anim_index_for_key].
  split; [done|]. split; [by rewrite Hlen|].
  specialize (Hslots k default_key Hkey). cbn [Nat.add] in Hslots.
  destruct (py_index names default_key) as [i|e] eqn:Hfound.
  - split; [done|]. by apply py_index_Ok.
  - destruct Hslots as [Hslot Hout]. split; [done|].
    split; [by apply (py_index_Raise _ _ e)|]. split; [done|].
    symmetry. apply lookup_lt_is_Some.
Qed.

(** Slot 5 on a robot that knows the default animation of key 5. *)
Lemma init_default_bindings_witness :
  default_anims_for_keys !! 5%nat = Some "anim_wakeword_groggyeyes_listenloop_01"
  ∧ ∃ self out,
      init (mkRobot [] 0%Q) small_anim_list "[]" = (Ok self, out)
      ∧ anim_names self = build_anim_names small_anim_list
      ∧ length (anim_index_for_key self) = 10%nat
      ∧ match py_index (anim_names self) "anim_wakeword_groggyeyes_listenloop_01" with
        | Ok i =>
            anim_index_for_key self !! 5%nat = Some i
            ∧ 0 ≤ i < Z.of_nat (length (anim_names self))
            ∧ anim_names self !! Z.to_nat i
              = Some "anim_wakeword_groggyeyes_listenloop_01"
        | Raise _ =>
            anim_index_for_key self !! 5%nat = Some (Z.of_nat 5)
            ∧ ("anim_wakeword_groggyeyes_listenloop_01" ∉ anim_names self)
            ∧ default_anim_error "anim_wakeword_groggyeyes_listenloop_01" ∈ out
            ∧ ((5 < length (anim_names self))%nat ↔ is_Some (anim_names self !! 5%nat))
        end.
Proof.
  split; [reflexivity|].
  apply (init_default_bindings (mkRobot [] 0%Q) small_anim_list "[]" 5
           "anim_wakeword_groggyeyes_listenloop_01").
  reflexivity.
Defined.

Lemma py_getitem_Ok {A} (l : list A) i x :
  py_getitem l i = Ok x → - Z.of_nat (length l) ≤ i < Z.of_nat (length l).
Proof.
  unfold py_getitem, py_slot.
  repeat case_bool_decide; [lia|lia|done].
Qed.

Lemma py_getitem_out_of_range {A} (l : list A) i :
  Z.of_nat (length l) ≤ i → py_getitem l i = Raise IndexError.
Proof.
  intros Hi. unfold py_getitem, py_slot.
  rewrite !bool_decide_eq_false_2 by lia. done.
Qed.

Lemma py_slot_nonneg {A} (l : list A) (i : Z) :
  0 ≤ i < Z.of_nat (length l) → py_slot l i = Some (Z.to_nat i).
Proof. intros Hi. unfold py_slot. by rewrite bool_decide_eq_true_2. Qed.

Lemma py_getitem_insert {A} (l : list A) (i : Z) x :
  0 ≤ i < Z.of_nat (length l) → py_getitem (<[Z.to_nat i:=x]> l) i = Ok x.
Proof.
  intros Hi. unfold py_getitem.
  rewrite py_slot_nonneg by (by rewrite length_insert).
  rewrite list_lookup_insert_eq by lia. done.
Qed.

Lemma set_anim_in_range self key_index anim_index :
  0 ≤ key_index < Z.of_nat (length (anim_index_for_key self)) →
  set_anim key_index anim_index self
  = (Ok tt, set_anim_index_for_key
              (<[Z.to_nat key_index:=anim_index]> (anim_index_for_key self)) self).
Proof.
  intros Hslot. unfold set_anim, py_setitem. run_monad. cbv beta iota zeta.
  by rewrite py_slot_nonneg.
Qed.

(** The result of the lookup depends on the bindings and the catalog only. *)
Lemma key_code_to_anim_name_result key_code self :
  (key_code_to_anim_name key_code self).1
  = match py_getitem (anim_index_for_key self) (key_code - ord "0") with
    | Ok anim_num => py_getitem (anim_names self) anim_num
    | Raise e => Raise e
    end.
Proof.
  unfold key_code_to_anim_name. run_monad. cbv beta iota zeta.
  destruct (py_getitem (anim_index_for_key self) _) as [anim_num|]; [|done].
  by destruct (py_getitem (anim_names self) anim_num).
Qed.

(** A digit released: what the lookup raises, the key event raises. *)
Lemma handle_key_digit_release_raises key_code is_shift_down is_alt_down self e :
  ord "0" ≤ key_code ≤ ord "9" →
  (key_code_to_anim_name key_code self).1 = Raise e →
  (handle_key key_code is_shift_down is_alt_down false self).1 = Raise e.
Proof.
  intros Hdigit Hraise. rewrite handle_key_phases. unfold mbind, M_bind, bind.
  pose proof (key_motion_ok key_code is_shift_down is_alt_down false self) as Hok.
  destruct (key_motion_sends key_code is_shift_down is_alt_down false self)
    as (_ & _ & _ & _ & _ & _ & _ & (_ & Hnames & Htable)).
  destruct (key_motion _ _ _ _ self) as [[[]|] self1]; [|done].
  cbn [snd] in Hnames, Htable.
  unfold key_release. cbn [negb].
  replace ((key_code <=? ord "9") && (ord "0" <=? key_code)) with true
    by (symmetry; apply andb_true_iff; split; apply Z.leb_le; lia).
  unfold bind.
  pose proof (key_code_to_anim_name_result key_code self1) as Hres.
  rewrite Htable, Hnames, <- key_code_to_anim_name_result, Hraise in Hres.
  destruct (key_code_to_anim_name key_code self1) as [[name|e'] self2];
    cbn in *; congruence.
Qed.

(** C10: [set_anim] writes whatever index it is given into an existing slot
    of the binding table, without looking at the catalog; the lookup made
    when a digit key is released succeeds only if the slot is one of 0..9
    and the stored index is below the length of the catalog; and when the
    stored index is the length of the catalog or more, releasing that digit
    raises [IndexError]. *)
Theorem set_anim_unchecked_lookup_unguarded :
  (∀ self key_index anim_index,
     0 ≤ key_index < Z.of_nat (length (anim_index_for_key self)) →
     set_anim key_index anim_index self
     = (Ok tt, set_anim_index_for_key
                 (<[Z.to_nat key_index:=anim_index]> (anim_index_for_key self)) self))
  ∧ (∀ self key_code anim_name,
       ord "0" ≤ key_code ≤ ord "9" →
       (key_code_to_anim_name key_code self).1 = Ok anim_name →
       0 ≤ key_code - ord "0" ≤ 9
       ∧ ∃ anim_num,
           py_getitem (anim_index_for_key self) (key_code - ord "0") = Ok anim_num
           ∧ anim_num < Z.of_nat (length (anim_names self))
           ∧ py_getitem (anim_names self) anim_num = Ok anim_name)
  ∧ (∀ self key_index anim_index is_shift_down is_alt_down,
       0 ≤ key_index ≤ 9 →
       length (anim_index_for_key self) = 10%nat →
       Z.of_nat (length (anim_names self)) ≤ anim_index →
       let self' := (set_anim key_index anim_index self).2 in
       (handle_key (ord "0" + key_index) is_shift_down is_alt_down false self').1
       = Raise IndexError).
Proof.
  split; [|split].
  - apply set_anim_in_range.
  - intros self key_code anim_name Hdigit.
    rewrite key_code_to_anim_name_result.
    destruct (py_getitem (anim_index_for_key self) _) as [anim_num|] eqn:Hnum; [|done].
    intros Hname. split; [unfold ord in *; cbn in *; lia|].
    exists anim_num. split; [done|]. split; [|done].
    by apply py_getitem_Ok in Hname as [_ ?].
  - intros self key_index anim_index is_shift_down is_alt_down Hslot Hlen Hbig self'.
    apply handle_key_digit_release_raises; [unfold ord; cbn; lia|].
    rewrite key_code_to_anim_name_result.
    replace (ord "0" + key_index - ord "0") with key_index by lia.
    subst self'. rewrite set_anim_in_range by lia. cbn [snd].
    destruct self; cbn [set_anim_index_for_key anim_index_for_key anim_names] in *.
    rewrite py_getitem_insert by lia.
    by apply py_getitem_out_of_range.
Qed.

(** Key 5 bound to index 1 of an empty catalog, then released. *)
Lemma set_anim_unchecked_lookup_unguarded_witness :
  (handle_key (ord "5") false false false (set_anim 5 1 idle_session).2).1
  = Raise IndexError.
Proof.
  apply (proj2 (proj2 set_anim_unchecked_lookup_unguarded)
           idle_session 5 1 false false).
  - lia.
  - reflexivity.
  - cbn. lia.
Defined.

(** * Further properties *)

(** ** [remap_to_range] *)

Lemma remap_ratio_bounds (x x_min x_max : Q) :
  (x_min <= x)%Q → (x <= x_max)%Q → (x_min < x_max)%Q →
  (0 <= (x - x_min) / (x_max - x_min) <= 1)%Q.
Proof.
  intros. split.
  - apply Qle_shift_div_l; lra.
  - apply Qle_shift_div_r; lra.
Qed.

Lemma Qeq_bool_false_lt (a : Q) : (0 < a)%Q → Qeq_bool a 0 = false.
Proof.
  intros Ha. destruct (Qeq_bool a 0) eqn:E; [|done].
  apply Qeq_bool_eq in E. lra.
Qed.

(** X1: on a proper input range ([x_min < x_max]) [remap_to_range] never
    raises; it returns [out_min] at and below [x_min], [out_max] at and above
    [x_max], and always a value between [out_min] and [out_max], whichever
    of the two is the larger. *)
Theorem remap_to_range_clamps x x_min x_max out_min out_max :
  (x_min < x_max)%Q →
  ∃ r, remap_to_range x x_min x_max out_min out_max = Ok r
       ∧ ((x <= x_min)%Q → (r == out_min)%Q)
       ∧ ((x_max <= x)%Q → (r == out_max)%Q)
       ∧ ((out_min <= out_max)%Q → (out_min <= r <= out_max)%Q)
       ∧ ((out_max <= out_min)%Q → (out_max <= r <= out_min)%Q).
Proof.
  intros Hrange. unfold remap_to_range.
  destruct (Qlt_le_dec x x_min) as [Hlo|Hlo].
  { exists out_min. repeat split; intros; try lra. }
  destruct (Qlt_le_dec x_max x) as [Hhi|Hhi].
  { exists out_max. repeat split; intros; try lra. }
  rewrite Qeq_bool_false_lt by lra.
  eexists. split; [reflexivity|].
  pose proof (remap_ratio_bounds x x_min x_max Hlo Hhi Hrange) as [H0 H1].
  set (ratio := ((x - x_min) / (x_max - x_min))%Q) in *.
  repeat split; intros.
  - assert (ratio == 0)%Q as ->; [|lra].
    subst ratio. assert (x - x_min == 0)%Q as -> by lra.
    unfold Qdiv. lra.
  - assert (ratio == 1)%Q as ->; [|lra].
    subst ratio. assert (x - x_min == x_max - x_min)%Q as -> by lra.
    field. lra.
  - nra.
  - nra.
  - nra.
  - nra.
Qed.

(** The mouse in the middle of the window. *)
Lemma remap_to_range_clamps_witness :
  (0 < 1)%Q
  ∧ ∃ r, remap_to_range (1 # 2) 0 1 (- (3 # 2)) (3 # 2) = Ok r
         ∧ ((1 # 2 <= 0)%Q → (r == - (3 # 2))%Q)
         ∧ ((1 <= 1 # 2)%Q → (r == 3 # 2)%Q)
         ∧ ((- (3 # 2) <= 3 # 2)%Q → (- (3 # 2) <= r <= 3 # 2)%Q)
         ∧ ((3 # 2 <= - (3 # 2))%Q → (3 # 2 <= r <= - (3 # 2))%Q).
Proof.
  split; [reflexivity|].
  apply (remap_to_range_clamps (1 # 2) 0 1 (- (3 # 2)) (3 # 2)).
  reflexivity.
Defined.


(** ** The motor commands *)

Lemma update_mouse_driving_eq self :
  update_mouse_driving self
  = (Ok tt, call (wheel_command (drive_dir_of self) (turn_dir_of self)
                    (speed_tier self)) self).
Proof.
  unfold update_mouse_driving, this, call_robot, modify, bind, get.
  unfold wheel_command, forward_speed_of, turn_speed_of, drive_dir_of, turn_dir_of.
  rewrite <- !pick_speed_select. reflexivity.
Qed.

Lemma emitted_call c self : emitted self (call c self) = [c].
Proof. apply emitted_app. by destruct self. Qed.

(** X3: reversing mirrors the drive: with the same turn keys, mouse offset
    and speed modifiers, the wheel command sent while S is held (and W is
    not) has the opposite left and right speeds, and the opposite
    accelerations, of the one sent while W is held (and S is not). *)
Theorem reversing_negates_wheel_speeds self :
  let forwards := set_drive_back false (set_drive_forwards true self) in
  let backwards := set_drive_back true (set_drive_forwards false self) in
  ∃ l r la ra l' r' la' ra',
    emitted forwards (update_mouse_driving forwards).2 = [SetWheelMotors l r la ra]
    ∧ emitted backwards (update_mouse_driving backwards).2
      = [SetWheelMotors l' r' la' ra']
    ∧ (l' == - l)%Q ∧ (r' == - r)%Q ∧ (la' == - la)%Q ∧ (ra' == - ra)%Q.
Proof.
  cbv zeta. rewrite !update_mouse_driving_eq. cbn [snd]. rewrite !emitted_call.
  unfold wheel_command. do 8 eexists. split; [reflexivity|]. split; [reflexivity|].
  destruct self as [? ? ? tl tr ? ? ? ? ? gf gs ? md ? ? ? ?].
  unfold drive_dir_of, turn_dir_of, forward_speed_of, turn_speed_of, speed_tier,
    pick_speed, select.
  cbn [set_drive_back set_drive_forwards drive_forwards drive_back turn_left
       turn_right mouse_dir go_fast go_slow b2q].
  destruct (Qlt_le_dec (1 - 0) 0) as [Hf|_]; [lra|].
  destruct (Qlt_le_dec (0 - 1) 0) as [_|Hb]; [|lra].
  destruct gf, gs; cbn [negb]; repeat split; lra.
Qed.

(** X4: as long as the mouse offset is within [-1.5, 1.5], the range
    [handle_mouse] keeps it in, every wheel command has both speeds within
    [-400, 400] and each acceleration equal to four times its speed. *)
Theorem wheel_speeds_bounded self :
  (- (3 # 2) <= mouse_dir self <= 3 # 2)%Q →
  ∃ l r la ra,
    emitted self (update_mouse_driving self).2 = [SetWheelMotors l r la ra]
    ∧ (- (400) <= l <= 400)%Q ∧ (- (400) <= r <= 400)%Q
    ∧ (la == 4 * l)%Q ∧ (ra == 4 * r)%Q.
Proof.
  intros Hmouse. rewrite update_mouse_driving_eq. cbn [snd]. rewrite emitted_call.
  unfold wheel_command. do 4 eexists. split; [reflexivity|].
  destruct self as [? df db tl tr ? ? ? ? ? gf gs ? md ? ? ? ?].
  unfold drive_dir_of, turn_dir_of, forward_speed_of, turn_speed_of, speed_tier,
    pick_speed, select.
  cbn [drive_forwards drive_back turn_left turn_right mouse_dir go_fast go_slow]
    in *.
  destruct (Qlt_le_dec _ 0) as [_|_];
    destruct df, db, tl, tr, gf, gs; cbn [negb b2q]; repeat split; lra.
Qed.

Lemma wheel_speeds_bounded_witness :
  (- (3 # 2) <= mouse_dir holding_forward <= 3 # 2)%Q
  ∧ ∃ l r la ra,
      emitted holding_forward (update_mouse_driving holding_forward).2
      = [SetWheelMotors l r la ra]
      ∧ (- (400) <= l <= 400)%Q ∧ (- (400) <= r <= 400)%Q
      ∧ (la == 4 * l)%Q ∧ (ra == 4 * r)%Q.
Proof.
  assert (H : (- (3 # 2) <= mouse_dir holding_forward <= 3 # 2)%Q)
    by (split; discriminate).
  split; [exact H|]. apply (wheel_speeds_bounded holding_forward H).
Defined.

(** X5: [update_lift] sends one lift command and nothing else; its velocity
    is 0 exactly when R and F are both held or both released, and otherwise
    plus or minus the speed of the tier (8, 4 or 2), so always within
    [-8, 8]. *)
Theorem update_lift_velocity self :
  ∃ lift_vel,
    update_lift self = (Ok tt, call (SetLiftMotor lift_vel) self)
    ∧ ((lift_vel == 0)%Q ↔ lift_up self = lift_down self)
    ∧ (lift_vel == (b2q (lift_up self) - b2q (lift_down self))
                   * select (speed_tier self) 8 4 2)%Q
    ∧ (- (8) <= lift_vel <= 8)%Q.
Proof.
  exists ((b2q (lift_up self) - b2q (lift_down self)) * pick_speed self 8 4 2)%Q.
  split; [reflexivity|].
  rewrite pick_speed_select.
  destruct (lift_up self), (lift_down self), (speed_tier self);
    cbn [b2q select]; repeat split; intros; try done; try lra.
Qed.

(** ** The mouse *)



Lemma update_head_eq self :
  update_head self
  = (Ok tt,
     if is_mouse_look_enabled self then self
     else call (SetHeadMotor ((b2q (head_up self) - b2q (head_down self))
                              * select (speed_tier self) 2 1 (1 # 2))%Q) self).
Proof.
  unfold update_head, this, call_robot, pass, modify, bind, get, mret, M_ret, ret.
  rewrite <- pick_speed_select. by destruct (is_mouse_look_enabled self).
Qed.

(** X7: [set_mouse_look_enabled] never raises and stores the new mode.
    Enabling sends nothing and keeps the mouse offset. Disabling resets the
    mouse offset to 0; if mouse-look was enabled it then sends exactly one
    wheel command, computed without any mouse contribution, followed by one
    head command for the held head keys; if mouse-look was already disabled
    it sends nothing. *)
Theorem set_mouse_look_enabled_effect enabled self :
  let self' := (set_mouse_look_enabled enabled self).2 in
  (set_mouse_look_enabled enabled self).1 = Ok tt
  ∧ is_mouse_look_enabled self' = enabled
  ∧ if enabled then
      mouse_dir self' = mouse_dir self ∧ emitted self self' = []
    else
      mouse_dir self' = 0%Q
      ∧ emitted self self'
        = if is_mouse_look_enabled self then
            [wheel_command (drive_dir_of self)
               (b2q (turn_right self) - b2q (turn_left self) + 0) (speed_tier self);
             SetHeadMotor ((b2q (head_up self) - b2q (head_down self))
                           * select (speed_tier self) 2 1 (1 # 2))%Q]
          else [].
Proof.
  unfold set_mouse_look_enabled. unfold this, modify, pass, mbind, M_bind, bind,
    get, mret, M_ret, ret. cbv beta iota zeta.
  destruct enabled; cbn [negb].
  { split; [done|]. split; [by destruct self|]. split; [by destruct self|].
    apply emitted_app. destruct self; cbn. by rewrite app_nil_r. }
  destruct (is_mouse_look_enabled self) eqn:Hml.
  - rewrite update_mouse_driving_eq. cbv beta iota.
    rewrite update_head_eq. cbn [fst snd].
    destruct self as [[sent0 angle] ? ? ? ? ? ? ? ? ? ? ? ml ? ? ? ? ?].
    cbn [is_mouse_look_enabled] in Hml. subst ml.
    cbn [set_mouse_dir set_is_mouse_look_enabled is_mouse_look_enabled call
         set_vector vector sent head_angle_deg mouse_dir].
    repeat split. apply emitted_app.
    cbn [vector sent]. by rewrite <- app_assoc.
  - cbn [fst snd]. split; [done|]. split; [by destruct self|].
    split; [by destruct self|].
    apply emitted_app. destruct self; cbn. by rewrite app_nil_r.
Qed.

(** ** More on the action queue *)

Lemma queue_run_app ops1 ops2 self :
  queue_run (ops1 ++ ops2) self = queue_run ops2 (queue_run ops1 self).
Proof. unfold queue_run. apply foldl_app. Qed.

Lemma queue_run_enqueue_all acts self :
  (length (action_queue self) ≤ 11)%nat →
  action_queue (queue_run (Enqueue <$> acts) self)
  = drop (length (action_queue self ++ acts) - 11) (action_queue self ++ acts).
Proof.
  intros Hlen. induction acts as [|a acts IH] using rev_ind.
  - cbn. rewrite app_nil_r.
    by replace (length (action_queue self) - 11)%nat with 0%nat by lia.
  - rewrite fmap_app, queue_run_app. cbn [fmap list_fmap].
    rewrite queue_run_cons, queue_step_enqueue. cbn [queue_run foldl].
    rewrite queue_action_queue, IH. clear IH.
    set (all := action_queue self ++ acts).
    rewrite app_assoc. fold all.
    rewrite length_drop, length_app. cbn [length].
    case_bool_decide as Hfull.
    + rewrite drop_drop.
      replace (length all + 1 - 11)%nat with (length all - 11 + 1)%nat by lia.
      rewrite drop_app_le; [done|lia].
    + replace (length all + 1 - 11)%nat with 0%nat by lia.
      by replace (length all - 11)%nat with 0%nat by lia.
Qed.

Lemma queue_run_vector_enqueue acts self :
  vector (queue_run (Enqueue <$> acts) self) = vector self.
Proof.
  revert self. induction acts as [|a acts IH]; intros self; [done|].
  rewrite fmap_cons, queue_run_cons, queue_step_enqueue, IH.
  apply queue_action_vector.
Qed.

Lemma update_sent reports self :
  sent (vector (update reports self).2)
  = sent (vector self)
    ++ match action_queue self with [] => [] | queued :: _ => [Run queued] end.
Proof.
  unfold update, this, pass, call_robot, bind, get, modify, mbind, M_bind, bind,
    mret, M_ret, ret.
  destruct self as [[sent0 angle] ? ? ? ? ? ? ? ? ? ? ? ? ? ? ? queue ?].
  cbn [action_queue]. destruct queue as [|queued rest]; cbn.
  - by rewrite app_nil_r.
  - by destruct (reports queued).
Qed.

Lemma queue_step_tick reports self :
  queue_step self (Tick reports) = (update reports self).2.
Proof. reflexivity. Qed.

Lemma queue_run_drain k self :
  action_queue (queue_run (replicate k (Tick always_done)) self)
  = drop k (action_queue self)
  ∧ sent (vector (queue_run (replicate k (Tick always_done)) self))
    = sent (vector self) ++ (Run <$> take k (action_queue self)).
Proof.
  revert self. induction k as [|k IH]; intros self.
  { cbn. by rewrite app_nil_r. }
  cbn [replicate]. rewrite queue_run_cons, queue_step_tick.
  destruct (IH (update always_done self).2) as [Hq Hs]. rewrite Hq, Hs. clear IH Hq Hs.
  rewrite update_sent. destruct (update_queue always_done self) as [_ ->].
  destruct (action_queue self) as [|queued rest]; cbn.
  - by rewrite drop_nil, take_nil, !app_nil_r.
  - by rewrite <- app_assoc.
Qed.

(** X8: whatever is enqueued onto an empty queue, the queue holds the most
    recent eleven of the actions (all of them when there are fewer), in the
    order they were enqueued; the robot is not called. *)
Theorem enqueue_keeps_most_recent acts self :
  action_queue self = [] →
  let self' := queue_run (Enqueue <$> acts) self in
  action_queue self' = drop (length acts - 11) acts
  ∧ length (action_queue self') = Nat.min (length acts) 11
  ∧ emitted self self' = [].
Proof.
  intros Hempty self'. subst self'.
  rewrite queue_run_enqueue_all by (rewrite Hempty; cbn; lia).
  rewrite Hempty. cbn [app]. split; [done|]. split.
  - rewrite length_drop. lia.
  - apply emitted_app. by rewrite queue_run_vector_enqueue, app_nil_r.
Qed.

Lemma enqueue_keeps_most_recent_witness :
  action_queue idle_session = []
  ∧ action_queue (queue_run (Enqueue <$> twelve_actions) idle_session)
    = drop (length twelve_actions - 11) twelve_actions.
Proof.
  split; [reflexivity|].
  apply (enqueue_keeps_most_recent twelve_actions idle_session). reflexivity.
Defined.

(** X9: with a robot that reports completion, [k] calls of [update]
    dispatch the first [k] queued actions, one per call and in queue order,
    and leave the rest of the queue; once the queue is empty further calls
    do nothing. *)
Theorem updates_drain_in_order k self :
  let self' := queue_run (replicate k (Tick always_done)) self in
  action_queue self' = drop k (action_queue self)
  ∧ emitted self self' = Run <$> take k (action_queue self).
Proof.
  cbv zeta. destruct (queue_run_drain k self) as [Hq Hs].
  split; [exact Hq|]. by apply emitted_app.
Qed.

(** X10: as long as the robot does not report completion, every call of
    [update] calls the robot again with the same head action and leaves the
    queue as it is. *)
Theorem pending_action_is_redispatched k self :
  let self' := queue_run (replicate k (Tick never_done)) self in
  action_queue self' = action_queue self
  ∧ emitted self self'
    = match action_queue self with
      | [] => []
      | queued :: _ => replicate k (Run queued)
      end.
Proof.
  cbv zeta.
  assert (action_queue (queue_run (replicate k (Tick never_done)) self)
          = action_queue self
          ∧ sent (vector (queue_run (replicate k (Tick never_done)) self))
            = sent (vector self)
              ++ match action_queue self with
                 | [] => []
                 | queued :: _ => replicate k (Run queued)
                 end) as [Hq Hs].
  { revert self. induction k as [|k IH]; intros self.
    { cbn. split; [done|]. destruct (action_queue self); by rewrite app_nil_r. }
    cbn [replicate]. rewrite queue_run_cons, queue_step_tick.
    destruct (IH (update never_done self).2) as [Hq Hs]. rewrite Hq, Hs. clear IH Hq Hs.
    rewrite update_sent. destruct (update_queue never_done self) as [_ ->].
    destruct (action_queue self) as [|queued rest]; cbn.
    - by rewrite !app_nil_r.
    - by rewrite <- app_assoc. }
  split; [exact Hq|]. by apply emitted_app.
Qed.

(** X11: actions reach the robot in the order they were queued: after
    enqueuing any actions onto an empty queue and then calling [update] once
    per action with a robot that reports completion, the robot has been
    called with the most recent eleven of them (all, when there are fewer),
    oldest first, and the queue is empty again. *)
Theorem queue_is_first_in_first_out acts self :
  action_queue self = [] →
  let self' :=
    queue_run ((Enqueue <$> acts) ++ replicate (length acts) (Tick always_done))
      self in
  action_queue self' = []
  ∧ emitted self self' = Run <$> drop (length acts - 11) acts.
Proof.
  intros Hempty self'. subst self'. rewrite queue_run_app.
  destruct (queue_run_drain (length acts) (queue_run (Enqueue <$> acts) self))
    as [Hq Hs].
  rewrite queue_run_enqueue_all in Hq, Hs by (rewrite Hempty; cbn; lia).
  rewrite Hempty in Hq, Hs. cbn [app] in Hq, Hs.
  rewrite queue_run_vector_enqueue in Hs. split.
  - rewrite Hq. apply drop_ge. rewrite length_drop. lia.
  - apply emitted_app. rewrite Hs. f_equal. f_equal.
    apply take_ge. rewrite length_drop. lia.
Qed.

Lemma queue_is_first_in_first_out_witness :
  action_queue idle_session = []
  ∧ emitted idle_session
      (queue_run ((Enqueue <$> twelve_actions)
                  ++ replicate (length twelve_actions) (Tick always_done))
         idle_session)
    = Run <$> drop (length twelve_actions - 11) twelve_actions.
Proof.
  split; [reflexivity|].
  apply (queue_is_first_in_first_out twelve_actions idle_session). reflexivity.
Defined.

(** ** Key events, in full *)

Lemma update_drive_state_eq key_code is_key_down speed_changed self :
  update_drive_state key_code is_key_down speed_changed self
  = (Ok (is_drive_key key_code || speed_changed),
     if key_code =? ord "W" then set_drive_forwards is_key_down self
     else if key_code =? ord "S" then set_drive_back is_key_down self
     else if key_code =? ord "A" then set_turn_left is_key_down self
     else if key_code =? ord "D" then set_turn_right is_key_down self
     else self).
Proof.
  unfold update_drive_state, is_drive_key. run_monad.
  destruct (key_code =? ord "W"); [done|].
  destruct (key_code =? ord "S"); [done|].
  destruct (key_code =? ord "A"); [done|].
  destruct (key_code =? ord "D"); [done|].
  by destruct speed_changed.
Qed.

Lemma update_lift_state_eq key_code is_key_down speed_changed self :
  update_lift_state key_code is_key_down speed_changed self
  = (Ok (is_lift_key key_code || speed_changed),
     if key_code =? ord "R" then set_lift_up is_key_down self
     else if key_code =? ord "F" then set_lift_down is_key_down self
     else self).
Proof.
  unfold update_lift_state, is_lift_key. run_monad.
  destruct (key_code =? ord "R"); [done|].
  destruct (key_code =? ord "F"); [done|].
  by destruct speed_changed.
Qed.

Lemma update_head_state_eq key_code is_key_down speed_changed self :
  update_head_state key_code is_key_down speed_changed self
  = (Ok (is_head_key key_code || speed_changed),
     if key_code =? ord "T" then set_head_up is_key_down self
     else if key_code =? ord "G" then set_head_down is_key_down self
     else self).
Proof.
  unfold update_head_state, is_head_key. run_monad.
  destruct (key_code =? ord "T"); [done|].
  destruct (key_code =? ord "G"); [done|].
  by destruct speed_changed.
Qed.

Lemma make_vector_dock_with_charger_eq key_code self :
  make_vector_dock_with_charger key_code self
  = (Ok true, call_all (dock_commands key_code) self).
Proof.
  unfold make_vector_dock_with_charger, dock_commands. run_monad.
  by destruct (key_code =? ord "H").
Qed.

Lemma update_lift_eq self :
  update_lift self
  = (Ok tt, call (SetLiftMotor ((b2q (lift_up self) - b2q (lift_down self))
                                * select (speed_tier self) 8 4 2)%Q) self).
Proof.
  unfold update_lift, this, call_robot, modify, bind, get.
  by rewrite <- pick_speed_select.
Qed.

(** The motion part of a key event as one function of the session. *)
Lemma key_motion_eq key_code is_shift_down is_alt_down is_key_down self :
  key_motion key_code is_shift_down is_alt_down is_key_down self
  = (Ok tt,
     let self1 := with_keys key_code is_shift_down is_alt_down is_key_down self in
     call_all
       (motion_commands key_code
          (speed_flags_changed self is_shift_down is_alt_down) self1)
       self1).
Proof.
  unfold key_motion, speed_flags_changed.
  unfold this, modify, get, mbind, M_bind, bind. cbv beta iota zeta.
  rewrite update_drive_state_eq. cbv beta iota.
  rewrite update_lift_state_eq. cbv beta iota.
  rewrite update_head_state_eq. cbv beta iota.
  fold (with_keys key_code is_shift_down is_alt_down is_key_down self).
  generalize (with_keys key_code is_shift_down is_alt_down is_key_down self).
  generalize (xorb (go_fast self) is_shift_down || xorb (go_slow self) is_alt_down).
  intros changed self1.
  rewrite make_vector_dock_with_charger_eq. cbv beta iota.
  unfold motion_commands.
  set (docked := call_all (dock_commands key_code) self1).
  assert (Hwheel : (if is_drive_key key_code || changed
                    then update_mouse_driving else pass) docked
            = (Ok tt, call_all
                        (if is_drive_key key_code || changed
                         then [wheel_command (drive_dir_of self1) (turn_dir_of self1)
                                 (speed_tier self1)] else []) docked)).
  { destruct (_ || _); [|done]. rewrite update_mouse_driving_eq. subst docked.
    unfold dock_commands. by destruct self1, (key_code =? ord "H"). }
  rewrite Hwheel. cbv beta iota. clear Hwheel.
  set (driven := call_all _ docked).
  assert (Hhead : (if is_head_key key_code || changed then update_head else pass) driven
            = (Ok tt, call_all
                        (if (is_head_key key_code || changed)
                            && negb (is_mouse_look_enabled self1)
                         then [SetHeadMotor
                                 ((b2q (head_up self1) - b2q (head_down self1))
                                  * select (speed_tier self1) 2 1 (1 # 2))%Q]
                         else []) driven)).
  { destruct (is_head_key _ || _); [|done]. rewrite update_head_eq.
    subst driven docked. unfold dock_commands.
    by destruct self1 as [? ? ? ? ? ? ? ? ? ? ? ? [] ? ? ? ? ?],
      (key_code =? ord "H"), (is_drive_key _ || _). }
  rewrite Hhead. cbv beta iota. clear Hhead.
  set (headed := call_all _ driven).
  assert (Hlift : (if is_lift_key key_code || changed then update_lift else pass) headed
            = (Ok tt, call_all
                        (if is_lift_key key_code || changed
                         then [SetLiftMotor
                                 ((b2q (lift_up self1) - b2q (lift_down self1))
                                  * select (speed_tier self1) 8 4 2)%Q]
                         else []) headed)).
  { destruct (is_lift_key _ || _); [|done]. rewrite update_lift_eq.
    subst headed driven docked. unfold dock_commands.
    by destruct self1 as [? ? ? ? ? ? ? ? ? ? ? ? [] ? ? ? ? ?],
      (key_code =? ord "H"), (is_drive_key _ || _), (is_head_key _ || _). }
  rewrite Hlift. cbv beta iota. clear Hlift.
  rewrite make_vector_dock_with_charger_eq. cbv beta iota.
  unfold pass, mret, M_ret, ret. f_equal.
  subst headed driven docked. unfold call_all. by rewrite <- !foldl_app.
Qed.

Lemma queue_action_eq new_action self :
  queue_action new_action self
  = (Ok tt, set_action_queue (enqueued (action_queue self) new_action) self).
Proof.
  unfold queue_action, enqueued. run_monad.
  case_bool_decide; by destruct self.
Qed.

Lemma key_release_eq key_code is_key_down self :
  key_release key_code is_key_down self
  = if is_key_down then (Ok tt, self)
    else if is_digit_key key_code then
      match (key_code_to_anim_name key_code self).1 with
      | Ok anim_name =>
          (Ok tt, set_action_queue
                    (enqueued (action_queue self) (PlayAnimation anim_name)) self)
      | Raise e => (Raise e, self)
      end
    else if key_code =? ord " " then
      (Ok tt, set_action_queue
                (enqueued (action_queue self) (SayText (text_to_say self))) self)
    else (Ok tt, self).
Proof.
  unfold key_release, is_digit_key. destruct is_key_down; [done|]. cbn [negb].
  destruct (_ && _).
  - unfold bind.
    pose proof (key_code_to_anim_name_state key_code self) as Hstate.
    destruct (key_code_to_anim_name key_code self) as [[anim_name|e] self1];
      cbn [fst snd] in *; subst self1; [|done].
    apply queue_action_eq.
  - destruct (_ =? _); [|done]. unfold bind, this, get. apply queue_action_eq.
Qed.

Lemma call_all_fields cmds self :
  sent (vector (call_all cmds self)) = sent (vector self) ++ cmds
  ∧ head_angle_deg (vector (call_all cmds self)) = head_angle_deg (vector self)
  ∧ action_queue (call_all cmds self) = action_queue self
  ∧ beyond_keys (call_all cmds self) = beyond_keys self
  ∧ (go_fast (call_all cmds self), go_slow (call_all cmds self))
    = (go_fast self, go_slow self).
Proof.
  revert self. induction cmds as [|c cmds IH]; intros self.
  { cbn. by rewrite app_nil_r. }
  cbn [call_all foldl]. fold (call_all cmds (call c self)).
  destruct (IH (call c self)) as (-> & -> & -> & -> & ->).
  destruct self. cbn. by rewrite <- app_assoc.
Qed.

Lemma with_keys_fields key_code is_shift_down is_alt_down is_key_down self :
  let self1 := with_keys key_code is_shift_down is_alt_down is_key_down self in
  vector self1 = vector self
  ∧ action_queue self1 = action_queue self
  ∧ beyond_keys self1 = beyond_keys self
  ∧ (go_fast self1, go_slow self1) = (is_shift_down, is_alt_down).
Proof.
  unfold with_keys. destruct self.
  destruct (key_code =? ord "W"), (key_code =? ord "S"), (key_code =? ord "A"),
    (key_code =? ord "D"), (key_code =? ord "R"), (key_code =? ord "F"),
    (key_code =? ord "T"), (key_code =? ord "G"); done.
Qed.

(** The state a key event leaves behind its motion part. *)
Lemma key_motion_fields key_code is_shift_down is_alt_down is_key_down self :
  let self1 := (key_motion key_code is_shift_down is_alt_down is_key_down self).2 in
  sent (vector self1)
  = sent (vector self)
    ++ motion_commands key_code (speed_flags_changed self is_shift_down is_alt_down)
         (with_keys key_code is_shift_down is_alt_down is_key_down self)
  ∧ action_queue self1 = action_queue self
  ∧ beyond_keys self1 = beyond_keys self
  ∧ (go_fast self1, go_slow self1) = (is_shift_down, is_alt_down).
Proof.
  cbv zeta. rewrite key_motion_eq. cbn [snd]. cbv zeta.
  destruct (call_all_fields
              (motion_commands key_code
                 (speed_flags_changed self is_shift_down is_alt_down)
                 (with_keys key_code is_shift_down is_alt_down is_key_down self))
              (with_keys key_code is_shift_down is_alt_down is_key_down self))
    as (-> & _ & -> & -> & ->).
  destruct (with_keys_fields key_code is_shift_down is_alt_down is_key_down self)
    as (-> & -> & -> & ->).
  done.
Qed.

Lemma handle_key_eq key_code is_shift_down is_alt_down is_key_down self :
  handle_key key_code is_shift_down is_alt_down is_key_down self
  = key_release key_code is_key_down
      (key_motion key_code is_shift_down is_alt_down is_key_down self).2.
Proof.
  rewrite handle_key_phases. unfold mbind, M_bind, bind.
  by rewrite key_motion_eq.
Qed.

Lemma key_code_to_anim_name_beyond_keys key_code self self' :
  beyond_keys self' = beyond_keys self →
  (key_code_to_anim_name key_code self').1 = (key_code_to_anim_name key_code self).1.
Proof.
  intros [= _ _ _ Hnames Htable _].
  by rewrite !key_code_to_anim_name_result, Hnames, Htable.
Qed.

(** X12: what a key event sends to the robot, exactly and in order: the
    dock call if the key is H; then the wheel command if the key is a drive
    key or shift/alt changed; then the head command under the same condition
    for the head keys, unless mouse-look is enabled; then the lift command
    likewise; then the dock call a second time if the key is H. Each command
    is computed from the flags as the event has just set them, and this
    holds for presses and releases alike, also when the release raises. *)
Theorem handle_key_commands key_code is_shift_down is_alt_down is_key_down self :
  emitted self (handle_key key_code is_shift_down is_alt_down is_key_down self).2
  = motion_commands key_code (speed_flags_changed self is_shift_down is_alt_down)
      (with_keys key_code is_shift_down is_alt_down is_key_down self).
Proof.
  apply emitted_app. rewrite handle_key_vector.
  apply (key_motion_fields key_code is_shift_down is_alt_down is_key_down self).
Qed.

(** X13: the queue under a key event. A key press never raises and leaves
    the queue alone. The release of a digit looks its animation up and
    enqueues [PlayAnimation] of it, or raises what the lookup raises and
    leaves the queue alone; the release of the space bar enqueues [SayText]
    of the current text; the release of any other key leaves the queue
    alone. Enqueuing drops the oldest entry when eleven are waiting. *)
Theorem handle_key_queue key_code is_shift_down is_alt_down is_key_down self :
  let result := handle_key key_code is_shift_down is_alt_down is_key_down self in
  let queue := action_queue self in
  (result.1, action_queue result.2)
  = if is_key_down then (Ok tt, queue)
    else if is_digit_key key_code then
      match (key_code_to_anim_name key_code self).1 with
      | Ok anim_name => (Ok tt, enqueued queue (PlayAnimation anim_name))
      | Raise e => (Raise e, queue)
      end
    else if key_code =? ord " " then
      (Ok tt, enqueued queue (SayText (text_to_say self)))
    else (Ok tt, queue).
Proof.
  cbv zeta. rewrite handle_key_eq, key_release_eq.
  destruct (key_motion_fields key_code is_shift_down is_alt_down is_key_down self)
    as (_ & Hqueue & Hkept & _).
  set (self1 := (key_motion key_code is_shift_down is_alt_down is_key_down self).2) in *.
  rewrite (key_code_to_anim_name_beyond_keys key_code self self1 Hkept).
  assert (Htext : text_to_say self1 = text_to_say self) by (by injection Hkept).
  destruct is_key_down; [cbn [fst snd]; by rewrite Hqueue|].
  destruct (is_digit_key key_code).
  - destruct (key_code_to_anim_name key_code self).1; cbn [fst snd];
      by rewrite ?action_queue_set, ?Hqueue.
  - destruct (key_code =? ord " "); cbn [fst snd];
      by rewrite ?action_queue_set, ?Hqueue, ?Htext.
Qed.

Lemma beyond_keys_set_action_queue queue self :
  beyond_keys (set_action_queue queue self) = beyond_keys self
  ∧ (go_fast (set_action_queue queue self), go_slow (set_action_queue queue self))
    = (go_fast self, go_slow self).
Proof. by destruct self. Qed.

(** X14: a key event writes only the intent flags, the queue and the
    robot: the torch and mouse-look modes, the mouse offset, the catalog,
    the bindings and the text to say are what they were, and the speed
    modifiers are exactly the shift and alt states of the event. *)
Theorem handle_key_frame key_code is_shift_down is_alt_down is_key_down self :
  let self' := (handle_key key_code is_shift_down is_alt_down is_key_down self).2 in
  beyond_keys self' = beyond_keys self
  ∧ (go_fast self', go_slow self') = (is_shift_down, is_alt_down).
Proof.
  cbv zeta. rewrite handle_key_eq, key_release_eq.
  destruct (key_motion_fields key_code is_shift_down is_alt_down is_key_down self)
    as (_ & _ & Hkept & Hspeed).
  set (self1 := (key_motion key_code is_shift_down is_alt_down is_key_down self).2) in *.
  destruct is_key_down; [done|].
  destruct (is_digit_key key_code).
  - destruct (key_code_to_anim_name key_code self1).1; cbn [snd]; [|done].
    destruct (beyond_keys_set_action_queue
                (enqueued (action_queue self1) (PlayAnimation a)) self1) as [-> ->].
    done.
  - destruct (key_code =? ord " "); cbn [snd]; [|done].
    destruct (beyond_keys_set_action_queue
                (enqueued (action_queue self1) (SayText (text_to_say self1))) self1)
      as [-> ->].
    done.
Qed.

(** ** Bindings that stay valid *)

Lemma py_getitem_in_range {A} (l : list A) (i : Z) :
  - Z.of_nat (length l) ≤ i < Z.of_nat (length l) →
  ∃ x, py_getitem l i = Ok x ∧ x ∈ l.
Proof.
  intros Hi. unfold py_getitem, py_slot.
  destruct (decide (0 ≤ i)) as [Hpos|Hneg].
  - rewrite bool_decide_eq_true_2 by lia.
    destruct (lookup_lt_is_Some_2 l (Z.to_nat i)) as [x Hx]; [lia|].
    rewrite Hx. exists x. split; [done|]. by eapply list_elem_of_lookup_2.
  - rewrite bool_decide_eq_false_2 by lia. rewrite bool_decide_eq_true_2 by lia.
    destruct (lookup_lt_is_Some_2 l (Z.to_nat (Z.of_nat (length l) + i))) as [x Hx];
      [lia|].
    rewrite Hx. exists x. split; [done|]. by eapply list_elem_of_lookup_2.
Qed.

Lemma is_digit_key_range key_code :
  is_digit_key key_code = true ↔ ord "0" ≤ key_code ≤ ord "9".
Proof.
  unfold is_digit_key. rewrite andb_true_iff, !Z.leb_le. lia.
Qed.

Lemma valid_bindings_lookup self key_code :
  valid_bindings self → ord "0" ≤ key_code ≤ ord "9" →
  ∃ anim_name,
    (key_code_to_anim_name key_code self).1 = Ok anim_name
    ∧ anim_name ∈ anim_names self.
Proof.
  intros [Hlen Hall] Hdigit. rewrite key_code_to_anim_name_result.
  destruct (py_getitem_in_range (anim_index_for_key self) (key_code - ord "0"))
    as (anim_num & -> & Hin); [unfold ord in *; cbn in *; lia|].
  apply (proj1 (Forall_forall _ _) Hall) in Hin.
  by apply py_getitem_in_range.
Qed.

Lemma valid_bindings_beyond_keys self self' :
  beyond_keys self' = beyond_keys self → valid_bindings self → valid_bindings self'.
Proof. intros [= _ _ _ Hnames Htable _]. unfold valid_bindings. by rewrite Hnames, Htable. Qed.

(** X15: bindings that are all valid indices for the catalog make every key
    event safe: [handle_key] never raises, the bindings are still valid
    afterwards, and the release of a digit enqueues [PlayAnimation] of a
    name of the catalog. *)
Theorem valid_bindings_keep_keys_safe
    key_code is_shift_down is_alt_down is_key_down self :
  valid_bindings self →
  let result := handle_key key_code is_shift_down is_alt_down is_key_down self in
  result.1 = Ok tt
  ∧ valid_bindings result.2
  ∧ (is_key_down = false → is_digit_key key_code = true →
     ∃ anim_name,
       anim_name ∈ anim_names self
       ∧ action_queue result.2
         = enqueued (action_queue self) (PlayAnimation anim_name)).
Proof.
  intros Hvalid. cbv zeta. rewrite handle_key_eq, key_release_eq.
  destruct (key_motion_fields key_code is_shift_down is_alt_down is_key_down self)
    as (_ & Hqueue & Hkept & _).
  set (self1 := (key_motion key_code is_shift_down is_alt_down is_key_down self).2) in *.
  pose proof (valid_bindings_beyond_keys self self1 Hkept Hvalid) as Hvalid1.
  destruct is_key_down; [done|].
  destruct (is_digit_key key_code) eqn:Hdigit.
  - apply is_digit_key_range in Hdigit.
    destruct (valid_bindings_lookup self1 key_code Hvalid1 Hdigit)
      as (anim_name & -> & Hin).
    cbn [fst snd]. split; [done|]. split.
    + apply (valid_bindings_beyond_keys self1); [|done].
      apply beyond_keys_set_action_queue.
    + intros _ _. exists anim_name. split.
      * injection Hkept as _ _ _ Hnames _ _. by rewrite <- Hnames.
      * by rewrite action_queue_set, Hqueue.
  - destruct (key_code =? ord " "); cbn [fst snd].
    + split; [done|]. split; [|done].
      apply (valid_bindings_beyond_keys self1); [|done].
      apply beyond_keys_set_action_queue.
    + done.
Qed.

Lemma valid_bindings_one_anim_session : valid_bindings one_anim_session.
Proof.
  split; [reflexivity|]. apply Forall_forall. intros anim_num Hin.
  apply elem_of_replicate in Hin as [-> _]. cbn. lia.
Qed.

(** Key 7 released on the session with one animation. *)
Lemma valid_bindings_keep_keys_safe_witness :
  (handle_key (ord "7") false false false one_anim_session).1 = Ok tt.
Proof.
  apply (valid_bindings_keep_keys_safe (ord "7") false false false one_anim_session
           valid_bindings_one_anim_session).
Defined.

(** What construction computes, with the facts of the loop over the default
    names. *)
Lemma init_eq robot all_anim_names name_data_list :
  ∃ table out,
    init robot all_anim_names name_data_list
    = (Ok (mkRCV (mkRobot (sent robot ++ [SetEyeColor 0 1]) (head_angle_deg robot))
             false false false false false false false false false false false
             false 0%Q (build_anim_names all_anim_names) table []
             "Hi I'm Vector"), out)
    ∧ length table = 10%nat
    ∧ ∀ k default_key,
        default_anims_for_keys !! k = Some default_key →
        match py_index (build_anim_names all_anim_names) default_key with
        | Ok i => table !! k = Some i
        | Raise _ => table !! k = Some (Z.of_nat k)
        end.
Proof.
  unfold init.
  destruct (assign_default_anims_spec (build_anim_names all_anim_names)
              default_anims_for_keys 0 (replicate 10 0)
              ["LIST OF NAMES"; name_data_list])
    as (table & out & Hrun & Hlen & _ & _ & Hslots); [cbn; lia|].
  change (Z.of_nat 0) with 0 in Hrun. rewrite Hrun.
  exists table, out. split; [done|]. split; [done|].
  intros k default_key Hkey. specialize (Hslots k default_key Hkey).
  cbn [Nat.add] in Hslots.
  destruct (py_index _ default_key); [done|]. by destruct Hslots.
Qed.

(** X16: when the catalog has at least ten names, construction leaves
    bindings that are all valid indices for it, whichever default names the
    robot lacks. *)
Theorem init_valid_bindings robot all_anim_names name_data_list :
  (10 ≤ length (build_anim_names all_anim_names))%nat →
  ∃ self out,
    init robot all_anim_names name_data_list = (Ok self, out)
    ∧ valid_bindings self.
Proof.
  intros Hsize.
  destruct (init_eq robot all_anim_names name_data_list)
    as (table & out & -> & Hlen & Hslots).
  eexists _, out. split; [reflexivity|].
  split; [done|]. cbn [anim_names anim_index_for_key].
  apply Forall_lookup. intros k anim_num Hk.
  assert (Hk10 : (k < 10)%nat) by (rewrite <- Hlen; by eapply lookup_lt_Some).
  destruct (lookup_lt_is_Some_2 default_anims_for_keys k) as [default_key Hkey];
    [done|].
  specialize (Hslots k default_key Hkey).
  destruct (py_index _ default_key) as [i|e] eqn:Hfound.
  - apply py_index_Ok in Hfound as [Hi _]. rewrite Hslots in Hk.
    injection Hk as <-. lia.
  - rewrite Hslots in Hk. injection Hk as <-. lia.
Qed.

Lemma init_valid_bindings_witness :
  (10 ≤ length (build_anim_names default_anims_for_keys))%nat
  ∧ ∃ self out,
      init (mkRobot [] 0%Q) default_anims_for_keys "[]" = (Ok self, out)
      ∧ valid_bindings self.
Proof.
  assert (H : (10 ≤ length (build_anim_names default_anims_for_keys))%nat)
    by (vm_compute; lia).
  split; [exact H|].
  apply (init_valid_bindings (mkRobot [] 0%Q) default_anims_for_keys "[]" H).
Defined.

Lemma default_anims_not_blocked default_key :
  default_key ∈ default_anims_for_keys → default_key ∉ bad_anim_names.
Proof.
  intros Hin Hbad. unfold default_anims_for_keys, bad_anim_names in *.
  repeat (apply elem_of_cons in Hbad as [->|Hbad];
          [repeat (apply elem_of_cons in Hin as [Hin|Hin]; [discriminate Hin|]);
           by apply elem_of_nil in Hin|]).
  by apply elem_of_nil in Hbad.
Qed.

(** X17: a digit key plays its default animation: if the robot supplies the
    default animation name of key [k], then on the freshly constructed
    session the release of digit [k] never raises and leaves exactly
    [PlayAnimation] of that name in the queue. *)
Theorem init_then_digit_plays_default
    robot all_anim_names name_data_list k default_key is_shift_down is_alt_down :
  default_anims_for_keys !! k = Some default_key →
  default_key ∈ all_anim_names →
  ∃ self out,
    init robot all_anim_names name_data_list = (Ok self, out)
    ∧ (handle_key (ord "0" + Z.of_nat k) is_shift_down is_alt_down false self).1
      = Ok tt
    ∧ action_queue
        (handle_key (ord "0" + Z.of_nat k) is_shift_down is_alt_down false self).2
      = [PlayAnimation default_key].
Proof.
  intros Hkey Hsupplied.
  assert (Hk10 : (k < 10)%nat) by (by apply lookup_lt_Some in Hkey).
  assert (Hin : default_key ∈ build_anim_names all_anim_names).
  { unfold build_anim_names, py_sort.
    rewrite list_elem_of_filter, merge_sort_Permutation. split; [|done].
    apply default_anims_not_blocked. by eapply list_elem_of_lookup_2. }
  destruct (init_eq robot all_anim_names name_data_list)
    as (table & out & -> & Hlen & Hslots).
  eexists _, out. split; [reflexivity|].
  specialize (Hslots k default_key Hkey).
  destruct (py_index _ default_key) as [i|e] eqn:Hfound;
    [|by apply py_index_Raise in Hfound].
  apply py_index_Ok in Hfound as [Hi Hname].
  set (self := mkRCV _ _ _ _ _ _ _ _ _ _ _ _ _ _ _ table _ _).
  assert (Hlookup : (key_code_to_anim_name (ord "0" + Z.of_nat k) self).1
                    = Ok default_key).
  { rewrite key_code_to_anim_name_result. subst self.
    cbn [anim_index_for_key anim_names].
    replace (ord "0" + Z.of_nat k - ord "0") with (Z.of_nat k) by lia.
    unfold py_getitem. rewrite py_slot_in_range by lia. rewrite Hslots.
    rewrite py_slot_nonneg by lia. by rewrite Hname. }
  rewrite handle_key_eq, key_release_eq.
  destruct (key_motion_fields (ord "0" + Z.of_nat k) is_shift_down is_alt_down
              false self) as (_ & Hqueue & Hkept & _).
  set (self1 := (key_motion _ _ _ _ self).2) in *.
  replace (is_digit_key (ord "0" + Z.of_nat k)) with true
    by (symmetry; apply is_digit_key_range; unfold ord; cbn; lia).
  rewrite (key_code_to_anim_name_beyond_keys _ self self1 Hkept), Hlookup.
  cbn [fst snd]. split; [done|].
  rewrite action_queue_set, Hqueue. reflexivity.
Qed.

Lemma init_then_digit_plays_default_witness :
  default_anims_for_keys !! 5%nat = Some "anim_wakeword_groggyeyes_listenloop_01"
  ∧ "anim_wakeword_groggyeyes_listenloop_01" ∈ small_anim_list
  ∧ ∃ self out,
      init (mkRobot [] 0%Q) small_anim_list "[]" = (Ok self, out)
      ∧ (handle_key (ord "0" + Z.of_nat 5) false false false self).1 = Ok tt
      ∧ action_queue (handle_key (ord "0" + Z.of_nat 5) false false false self).2
        = [PlayAnimation "anim_wakeword_groggyeyes_listenloop_01"].
Proof.
  assert (H : "anim_wakeword_groggyeyes_listenloop_01" ∈ small_anim_list)
    by (by left).
  split; [reflexivity|]. split; [exact H|].
  apply (init_then_digit_plays_default (mkRobot [] 0%Q) small_anim_list "[]" 5
           "anim_wakeword_groggyeyes_listenloop_01" false false eq_refl H).
Defined.

(** ** Rebinding a key *)

(** X18: [set_anim] addresses the binding table as Python does. With [n]
    slots, a key index from [-n] to [n - 1] writes slot [key_index mod n]
    (so [-1] rebinds the last key) with whatever animation index is given
    and changes nothing else; any other key index raises [IndexError] and
    changes nothing. *)
Theorem set_anim_slot key_index anim_index self :
  let n := Z.of_nat (length (anim_index_for_key self)) in
  set_anim key_index anim_index self
  = if bool_decide (- n ≤ key_index < n) then
      (Ok tt,
       set_anim_index_for_key
         (<[Z.to_nat (key_index `mod` n):=anim_index]> (anim_index_for_key self))
         self)
    else (Raise IndexError, self).
Proof.
  cbv zeta. unfold set_anim, py_setitem, py_slot. run_monad. cbv beta iota zeta.
  set (n := Z.of_nat (length (anim_index_for_key self))).
  destruct (decide (0 ≤ key_index < n)) as [Hpos|Hnot].
  - rewrite bool_decide_eq_true_2 by done.
    rewrite bool_decide_eq_true_2 by lia.
    by rewrite Z.mod_small.
  - rewrite bool_decide_eq_false_2 by done.
    destruct (decide (- n ≤ key_index < 0)) as [Hneg|Hout].
    + rewrite bool_decide_eq_true_2 by done.
      rewrite bool_decide_eq_true_2 by lia.
      replace (key_index `mod` n) with (n + key_index); [done|].
      rewrite <- (Z_mod_plus_full key_index 1 n).
      rewrite Z.mod_small by lia. lia.
    + rewrite bool_decide_eq_false_2 by done.
      by rewrite bool_decide_eq_false_2 by lia.
Qed.

Lemma py_getitem_insert_ne {A} (l : list A) (i j : Z) x :
  0 ≤ i < Z.of_nat (length l) → 0 ≤ j < Z.of_nat (length l) → i ≠ j →
  py_getitem (<[Z.to_nat i:=x]> l) j = py_getitem l j.
Proof.
  intros Hi Hj Hne. unfold py_getitem.
  rewrite !py_slot_nonneg by (rewrite ?length_insert; lia).
  rewrite list_lookup_insert_ne by lia. done.
Qed.

(** X19: rebinding and looking up round-trip. On a table of ten bindings,
    after [set_anim k v] for a digit [k], the lookup made for digit [k] is
    the catalog entry at [v] (or fails as indexing the catalog at [v]
    fails), and the lookup made for any other digit is what it was
    before. *)
Theorem set_anim_then_lookup self key_index anim_index other :
  length (anim_index_for_key self) = 10%nat →
  0 ≤ key_index ≤ 9 → 0 ≤ other ≤ 9 →
  let self' := (set_anim key_index anim_index self).2 in
  (key_code_to_anim_name (ord "0" + other) self').1
  = if bool_decide (other = key_index)
    then py_getitem (anim_names self) anim_index
    else (key_code_to_anim_name (ord "0" + other) self).1.
Proof.
  intros Hlen Hkey Hother self'. subst self'.
  rewrite set_anim_in_range by lia. cbn [snd].
  rewrite !key_code_to_anim_name_result.
  replace (ord "0" + other - ord "0") with other by lia.
  assert (Hnames : ∀ t, anim_names (set_anim_index_for_key t self) = anim_names self)
    by (intros t; by destruct self).
  assert (Htable : ∀ t, anim_index_for_key (set_anim_index_for_key t self) = t)
    by (intros t; by destruct self).
  rewrite Hnames, Htable.
  case_bool_decide as Heq.
  - subst other. by rewrite py_getitem_insert by lia.
  - by rewrite py_getitem_insert_ne by lia.
Qed.

(** Key 3 rebound on the session with one animation, then looked up. *)
Lemma set_anim_then_lookup_witness :
  (key_code_to_anim_name (ord "0" + 3) (set_anim 3 0 one_anim_session).2).1
  = if bool_decide (3 = 3)
    then py_getitem (anim_names one_anim_session) 0
    else (key_code_to_anim_name (ord "0" + 3) one_anim_session).1.
Proof.
  apply (set_anim_then_lookup one_anim_session 3 0 3); [reflexivity|lia|lia].
Defined.

(** ** Requests on a running session *)

Local Arguments handle_key : simpl never.

Lemma handle_key_event_session message is_key_down self :
  handle_key_event message is_key_down (Some self)
  = match handle_key (keyCode message) (hasShift message) (hasAlt message)
            is_key_down self with
    | (Ok _, self') => (Ok "", Some self')
    | (Raise e, self') => (Raise e, Some self')
    end.
Proof.
  unfold handle_key_event, has_session, on_session, empty_response.
  unfold mbind, M_bind, bind, mret, M_ret, ret. cbn.
  by destruct (handle_key (keyCode message) (hasShift message) (hasAlt message)
                 is_key_down self) as [[[]|e] self'].
Qed.

(** X20: the text typed is the text spoken: after a [sayText] request, a
    [keyup] of the space bar answers normally and enqueues [SayText] of the
    text just entered, dropping the oldest queued action if eleven are
    waiting. *)
Theorem say_text_then_space text message self :
  keyCode message = ord " " →
  ∃ self',
    handle_keyup message (handle_sayText text (Some self)).2 = (Ok "", Some self')
    ∧ text_to_say self' = text
    ∧ action_queue self' = enqueued (action_queue self) (SayText text).
Proof.
  intros Hspace.
  assert (Hsay : (handle_sayText text (Some self)).2
                 = Some (set_text_to_say text self)) by reflexivity.
  rewrite Hsay. unfold handle_keyup. rewrite handle_key_event_session, Hspace.
  set (self1 := set_text_to_say text self).
  pose proof (handle_key_eq (ord " ") (hasShift message) (hasAlt message) false self1)
    as Heq.
  rewrite key_release_eq in Heq.
  change (is_digit_key (ord " ")) with false in Heq.
  change (ord " " =? ord " ") with true in Heq. cbv iota in Heq.
  destruct (key_motion_fields (ord " ") (hasShift message) (hasAlt message) false
              self1) as (_ & Hqueue & Hkept & _).
  rewrite Heq. eexists. split; [reflexivity|].
  assert (Htext : text_to_say (key_motion (ord " ") (hasShift message)
                                 (hasAlt message) false self1).2 = text).
  { injection Hkept as _ _ _ _ _ ->. by destruct self. }
  rewrite Htext. split.
  - destruct (key_motion _ _ _ _ self1).2; exact Htext.
  - rewrite action_queue_set, Hqueue. by destruct self.
Qed.

Lemma say_text_then_space_witness :
  ∃ self',
    handle_keyup (mkKeyMessage (ord " ") false false)
      (handle_sayText "hello" (Some idle_session)).2 = (Ok "", Some self')
    ∧ text_to_say self' = "hello"
    ∧ action_queue self' = enqueued (action_queue idle_session) (SayText "hello").
Proof.
  apply (say_text_then_space "hello" (mkKeyMessage (ord " ") false false)
           idle_session).
  reflexivity.
Defined.

Lemma call_all_app cmds1 cmds2 self :
  call_all (cmds1 ++ cmds2) self = call_all cmds2 (call_all cmds1 self).
Proof. unfold call_all. apply foldl_app. Qed.

Lemma setTorchMode_step depth self :
  setTorchMode (S depth) (Some self)
  = if torchIsEnabled self then setTorchMode depth (Some (call_all torch_round self))
    else (Ok tt,
          Some (call_all [SetEyeColor 0 1; SetScreenToColor 0 0 0 (1 # 100)] self)).
Proof.
  cbn [setTorchMode].
  destruct self as [? ? ? ? ? ? ? ? ? [] ? ? ? ? ? ? ? ?]; reflexivity.
Qed.

Lemma setTorchMode_on depth self :
  torchIsEnabled self = true →
  setTorchMode depth (Some self)
  = (Raise RecursionError,
     Some (call_all (concat (replicate depth torch_round)) self)).
Proof.
  revert self. induction depth as [|depth IH]; intros self Hon; [done|].
  rewrite setTorchMode_step, Hon.
  cbn [replicate concat]. rewrite call_all_app.
  apply IH. by destruct self.
Qed.

(** X21: the torch request with a session. Switching the torch off sends
    the eye colour and the black screen once and answers. Switching it on
    never answers: each round of [setTorchMode] sends the white eye colour
    and the white screen and calls itself again, nothing in it clears the
    flag, and the request ends in [RecursionError] once the interpreter's
    frames are used up, leaving the torch flag set. *)
Theorem handle_setTorchModeEnabled_session depth isTorchModeEnabled self :
  handle_setTorchModeEnabled (S depth) isTorchModeEnabled (Some self)
  = if isTorchModeEnabled then
      (Raise RecursionError,
       Some (call_all (concat (replicate (S depth) torch_round))
               (set_torchIsEnabled true self)))
    else
      (Ok "",
       Some (call_all [SetEyeColor 0 1; SetScreenToColor 0 0 0 (1 # 100)]
               (set_torchIsEnabled false self))).
Proof.
  unfold handle_setTorchModeEnabled.
  unfold mbind, M_bind, bind.
  change (on_session (modify (set_torchIsEnabled isTorchModeEnabled)) (Some self))
    with (Ok tt, Some (set_torchIsEnabled isTorchModeEnabled self)).
  cbv beta iota. destruct isTorchModeEnabled.
  - rewrite setTorchMode_on; [done|]. by destruct self.
  - rewrite setTorchMode_step.
    replace (torchIsEnabled (set_torchIsEnabled false self)) with false
      by (by destruct self).
    done.
Qed.

Lemma substring_all s : String.substring 0 (String.length s) s = s.
Proof. induction s as [|c s IH]; [done|]. cbn. by rewrite IH. Qed.

Lemma append_cons c p s : String c p +:+ s = String c (p +:+ s).
Proof. reflexivity. Qed.

Lemma prefix_append p s : String.prefix p (p +:+ s) = true.
Proof.
  induction p as [|c p IH]; [by destruct s|].
  rewrite append_cons. cbn [String.prefix].
  by destruct (ascii_dec c c).
Qed.

Lemma substring_append p s :
  String.substring (String.length p)
    (String.length (p +:+ s) - String.length p) (p +:+ s) = s.
Proof.
  induction p as [|c p IH].
  - change ("" +:+ s) with s. cbn [String.length].
    rewrite Nat.sub_0_r. apply substring_all.
  - rewrite append_cons. cbn [String.length String.substring Nat.sub]. exact IH.
Qed.

Lemma item_name_suffix suffix :
  String.prefix item_name_prefix (item_name_prefix +:+ suffix) = true
  ∧ String.substring (String.length item_name_prefix)
      (String.length (item_name_prefix +:+ suffix) - String.length item_name_prefix)
      (item_name_prefix +:+ suffix) = suffix.
Proof. split; [apply prefix_append|apply substring_append]. Qed.

(** X22: choosing an animation for a digit key and then releasing that key
    plays the chosen animation. For an item name made of the prefix
    [animSelector] and a text that [int] reads as a digit [k], and a selected
    index that Python accepts for the catalog, the [dropDownSelect] request
    answers normally, and a following [keyup] of digit [k] answers normally
    and enqueues [PlayAnimation] of the catalog entry at the selected
    index. *)
Theorem drop_down_then_digit_plays_selection
    py_int suffix k selected is_shift_down is_alt_down self :
  py_int suffix = Ok k →
  0 ≤ k ≤ 9 →
  length (anim_index_for_key self) = 10%nat →
  - Z.of_nat (length (anim_names self)) ≤ selected
  < Z.of_nat (length (anim_names self)) →
  ∃ self1 self2 anim_name,
    handle_dropDownSelect py_int
      (mkDropDownMessage (item_name_prefix +:+ suffix) selected) (Some self)
    = (Ok "", Some self1)
    ∧ handle_keyup (mkKeyMessage (ord "0" + k) is_shift_down is_alt_down) (Some self1)
      = (Ok "", Some self2)
    ∧ py_getitem (anim_names self) selected = Ok anim_name
    ∧ action_queue self2 = enqueued (action_queue self) (PlayAnimation anim_name).
Proof.
  intros Hparse Hk Hlen Hselected.
  destruct (py_getitem_in_range (anim_names self) selected Hselected)
    as (anim_name & Hname & _).
  set (self1 := set_anim_index_for_key
                  (<[Z.to_nat k:=selected]> (anim_index_for_key self)) self).
  assert (Hselect : handle_dropDownSelect py_int
                      (mkDropDownMessage (item_name_prefix +:+ suffix) selected)
                      (Some self) = (Ok "", Some self1)).
  { unfold handle_dropDownSelect, has_session, on_session, lift_result,
      empty_response, mbind, M_bind, bind, mret, M_ret, ret.
    cbn [itemName selectedIndex].
    destruct (item_name_suffix suffix) as [-> ->].
    cbn [bool_decide decide_rel andb]. cbv beta iota.
    change (bool_decide (is_Some (Some self))) with true. cbv beta iota.
    rewrite Hparse. cbn [andb]. cbv beta iota.
    rewrite set_anim_in_range by lia. done. }
  assert (Hlookup : (key_code_to_anim_name (ord "0" + k) self1).1 = Ok anim_name).
  { rewrite key_code_to_anim_name_result.
    replace (ord "0" + k - ord "0") with k by lia.
    subst self1. destruct self; cbn [anim_index_for_key anim_names
      set_anim_index_for_key] in *.
    by rewrite py_getitem_insert by lia. }
  exists self1. unfold handle_keyup. rewrite handle_key_event_session.
  cbn [keyCode hasShift hasAlt].
  rewrite handle_key_eq, key_release_eq.
  destruct (key_motion_fields (ord "0" + k) is_shift_down is_alt_down false self1)
    as (_ & Hqueue & Hkept & _).
  set (self1' := (key_motion _ _ _ _ self1).2) in *.
  replace (is_digit_key (ord "0" + k)) with true
    by (symmetry; apply is_digit_key_range; unfold ord; cbn; lia).
  rewrite (key_code_to_anim_name_beyond_keys _ self1 self1' Hkept), Hlookup.
  eexists _, anim_name. split; [done|]. split; [reflexivity|]. split; [done|].
  rewrite action_queue_set, Hqueue. subst self1. by destruct self.
Qed.

(** Key 3 rebound to the only animation through the drop-down, then
    released. *)
Lemma drop_down_then_digit_plays_selection_witness :
  ∃ self1 self2 anim_name,
    handle_dropDownSelect int_of_digit
      (mkDropDownMessage (item_name_prefix +:+ "3") 0) (Some one_anim_session)
    = (Ok "", Some self1)
    ∧ handle_keyup (mkKeyMessage (ord "0" + 3) false false) (Some self1)
      = (Ok "", Some self2)
    ∧ py_getitem (anim_names one_anim_session) 0 = Ok anim_name
    ∧ action_queue self2
      = enqueued (action_queue one_anim_session) (PlayAnimation anim_name).
Proof.
  apply (drop_down_then_digit_plays_selection int_of_digit "3" 3 0 false false
           one_anim_session); [reflexivity|lia|reflexivity|cbn; lia].
Defined.

(** ** Rendering an action *)

Lemma length_append (a b : string) :
  String.length (a +:+ b) = (String.length a + String.length b)%nat.
Proof.
  induction a as [|c a IH]; [done|].
  rewrite append_cons. cbn [String.length]. by rewrite IH.
Qed.

Lemma append_cancel_r (s1 s2 t : string) : s1 +:+ t = s2 +:+ t → s1 = s2.
Proof.
  revert s2. induction s1 as [|c s1 IH]; intros [|d s2] Heq.
  - done.
  - apply (f_equal String.length) in Heq.
    rewrite !length_append in Heq. cbn in Heq. lia.
  - apply (f_equal String.length) in Heq.
    rewrite !length_append in Heq. cbn in Heq. lia.
  - rewrite !append_cons in Heq. injection Heq as -> Heq. f_equal. by apply IH.
Qed.

(** X23: the text shown for a queued action tells the actions apart: two
    actions with the same [action_to_text] are the same action. *)
Theorem action_to_text_inj action1 action2 :
  action_to_text action1 = action_to_text action2 → action1 = action2.
Proof.
  unfold action_to_text.
  destruct action1 as [name1|text1], action2 as [name2|text2];
    cbn [func_to_name action_args]; intros Heq.
  - do 2 apply (inj (String.app _)) in Heq. by apply append_cancel_r in Heq as ->.
  - apply (f_equal first_char) in Heq. discriminate Heq.
  - apply (f_equal first_char) in Heq. discriminate Heq.
  - do 2 apply (inj (String.app _)) in Heq. by apply append_cancel_r in Heq as ->.
Qed.

Lemma action_to_text_inj_witness :
  action_to_text (SayText "hello") = action_to_text (SayText "hello")
  ∧ SayText "hello" = SayText "hello".
Proof.
  split; [reflexivity|].
  apply (action_to_text_inj (SayText "hello") (SayText "hello")). reflexivity.
Defined.

(** ** What every session keeps *)







